(** * The m68k assembly optimizer plugin: a model of its two source variants

    [optimizer_plugin.c] is a GCC plugin.  When the compiler has finished
    writing the assembly file of a translation unit, the plugin hands that
    file to an external rewriter ([optimize_lst.py]) and copies the rewriter's
    output over the file.  [optimizer_plugin_dummy.c] is the skeleton the
    plugin grew from: it reads the file and writes the same bytes back.

    The C code is embedded as functions over an explicit world: a table of
    files with open permissions, and a trace of what was printed to the error
    stream and which commands were run.  Each C function becomes a computation
    in a small monad whose results distinguish "go on with the next
    statement" from "a [return] statement was executed here".  The functions
    come twice: with transfers that the system carries out in full, and, in
    [OnDevice], with transfers that it may cut short. *)

From Stdlib Require Import ZArith String Ascii List Lia Bool.
From stdpp Require Import base option gmap strings list.

Local Open Scope Z_scope.

(** ** Strings of the C library *)

(** A [const char *] argument is either the null pointer or a string; the
    characters of a Rocq [string] stand for the bytes before the terminator. *)
Definition c_string := option string.

Definition strlen (s : string) : nat := String.length s.

(** [strcmp]: only the sign of the result is specified by C. *)
Definition strcmp (a b : string) : Z :=
  match String.compare a b with
  | Eq => 0
  | Lt => -1
  | Gt => 1
  end.

Definition tolower (c : ascii) : ascii :=
  let n := nat_of_ascii c in
  if (65 <=? n)%nat && (n <=? 90)%nat then ascii_of_nat (n + 32) else c.

Fixpoint lowercase (s : string) : string :=
  match s with
  | EmptyString => EmptyString
  | String c s' => String (tolower c) (lowercase s')
  end.

(** [strcasecmp] compares the two strings after folding each byte with
    [tolower]. *)
Definition strcasecmp (a b : string) : Z := strcmp (lowercase a) (lowercase b).

(** The string that starts [n] bytes into [s] (the pointer [s + n]). *)
Definition offset (s : string) (n : nat) : string :=
  substring n (String.length s - n) s.

(** [snprintf] into a buffer of [size] bytes keeps at most [size - 1] bytes of
    the formatted text. *)
Definition snprintf (size : nat) (formatted : string) : string :=
  substring 0 (size - 1) formatted.

Definition nl : string := String (ascii_of_nat 10) EmptyString.
Definition esc : string := String (ascii_of_nat 27) EmptyString.
Definition dquote : string := String (ascii_of_nat 34) EmptyString.

(** ** Files and streams *)

Abbreviation bytes := (list Byte.byte).

(** The part of the file system the plugin can observe: the regular files by
    path, and for each path whether [fopen] may open it for reading and for
    writing. *)
Record filesys := mk_filesys {
  files : gmap string bytes;
  rd_ok : string -> bool;
  wr_ok : string -> bool
}.

Definition with_files (fs : filesys) (m : gmap string bytes) : filesys :=
  {| files := m; rd_ok := rd_ok fs; wr_ok := wr_ok fs |}.

Definition contents (fs : filesys) (path : string) : bytes :=
  default [] (files fs !! path).

(** An open stream: the file it is attached to and its position. *)
Record FILE := mk_FILE { fpath : string; fpos : nat }.

Inductive fmode := mode_r | mode_w.

(** [fopen]: mode "r" needs an existing, readable file; mode "w" needs a
    writable path and leaves an empty file there. *)
Definition fopen (path : string) (mode : fmode) (fs : filesys)
  : option FILE * filesys :=
  match mode with
  | mode_r =>
      match files fs !! path with
      | Some _ =>
          if rd_ok fs path then (Some (mk_FILE path 0), fs) else (None, fs)
      | None => (None, fs)
      end
  | mode_w =>
      if wr_ok fs path
      then (Some (mk_FILE path 0), with_files fs (<[path := []]> (files fs)))
      else (None, fs)
  end.

(** The two transfers on an open stream, as they go when the system carries
    them out in full.  What the plugin does when the system cuts one short is
    the subject of [OnDevice] below, where [fread] and [fwrite] take the
    number of bytes the system lets through.

    [fread(buffer, 1, n, fp)]: the bytes read, at most [n], and the stream
    advanced past them. *)
Definition fread (n : nat) (fp : FILE) (fs : filesys) : bytes * FILE :=
  let buffer := take n (drop (fpos fp) (contents fs (fpath fp))) in
  (buffer, mk_FILE (fpath fp) (fpos fp + length buffer)).

(** [fwrite(buffer, 1, length buffer, fp)], carried out in full: the bytes
    are stored at the position of the stream, over what was there, after zero
    filling when the position is past the end. *)
Definition fwrite (buffer : bytes) (fp : FILE) (fs : filesys)
  : FILE * filesys :=
  let old := contents fs (fpath fp) in
  let new := take (fpos fp) old
             ++ replicate (fpos fp - length old) Byte.x00
             ++ buffer
             ++ drop (fpos fp + length buffer) old in
  (mk_FILE (fpath fp) (fpos fp + length buffer),
   with_files fs (<[fpath fp := new]> (files fs))).

(** [fseek(fp, 0, SEEK_END); ftell(fp)]. *)
Definition ftell_end (fp : FILE) (fs : filesys) : nat :=
  length (contents fs (fpath fp)).

(** [remove]: its result is never looked at by the plugin. *)
Definition remove (path : string) (fs : filesys) : filesys :=
  with_files fs (delete path (files fs)).

Definition sizeof_buffer : nat := 4096.

(** The copy loop of both stages of the plugin:
    [while ((bytes_read = fread(buffer, 1, sizeof(buffer), in)) > 0)
       fwrite(buffer, 1, bytes_read, out);]
    [fuel] bounds the number of [fread] calls; [None] is a loop that has not
    finished within the bound. *)
Fixpoint copy_loop (fuel : nat) (fp_in fp_out : FILE) (fs : filesys)
  : option filesys :=
  match fuel with
  | O => None
  | S fuel' =>
      let '(buffer, fp_in') := fread sizeof_buffer fp_in fs in
      if (0 <? length buffer)%nat
      then let '(fp_out', fs') := fwrite buffer fp_out fs in
           copy_loop fuel' fp_in' fp_out' fs'
      else Some fs
  end.

(** Every iteration but the last consumes at least one byte of the input, so
    one [fread] per remaining byte and one more to see the end is enough
    when the input is not written to meanwhile. *)
Definition copy_fuel (fp_in : FILE) (fs : filesys) : nat :=
  S (length (contents fs (fpath fp_in)) - fpos fp_in).

(** ** The world and the monad of C statements *)

Inductive arg :=
  | arg_str (s : string)
  | arg_int (z : Z).

(** What leaves the process: a [fprintf(stderr, fmt, args...)], or a
    [system(command)] with the value it returned. *)
Inductive event :=
  | ev_fprintf (fmt : string) (args : list arg)
  | ev_system (command : string) (ret : Z).

Record world := mk_world {
  disk : filesys;
  trace : list event
}.

(** A computation either goes on with a value, or has executed one of the
    [return] statements of its function ([E] names them), or is a copy loop
    that did not finish. *)
Inductive result (E A : Type) :=
  | Next (a : A) (w : world)
  | Return (e : E) (w : world)
  | Hang.
Arguments Next {E A} a w.
Arguments Return {E A} e w.
Arguments Hang {E A}.

Definition M (E A : Type) := world -> result E A.

Definition ret {E A} (a : A) : M E A := fun w => Next a w.

Definition bind {E A B} (m : M E A) (k : A -> M E B) : M E B :=
  fun w =>
    match m w with
    | Next a w' => k a w'
    | Return e w' => Return e w'
    | Hang => Hang
    end.

Definition return_at {E A} (e : E) : M E A := fun w => Return e w.

Notation "x <- m ;; k" := (bind m (fun x => k))
  (at level 100, m at next level, right associativity).
Notation "m ;;; k" := (bind m (fun _ => k))
  (at level 100, right associativity).

Definition emit {E} (e : event) : M E unit :=
  fun w => Next tt {| disk := disk w; trace := trace w ++ [e] |}.

Definition on_disk {E A} (f : filesys -> A * filesys) : M E A :=
  fun w => let '(a, fs') := f (disk w) in
           Next a {| disk := fs'; trace := trace w |}.

Definition fopen_m {E} (path : string) (mode : fmode) : M E (option FILE) :=
  on_disk (fopen path mode).

Definition fclose_m {E} (fp : FILE) : M E unit := ret tt.

Definition remove_m {E} (path : string) : M E unit :=
  on_disk (fun fs => (tt, remove path fs)).

Definition copy_m {E} (fp_in fp_out : FILE) : M E unit :=
  fun w =>
    match copy_loop (copy_fuel fp_in (disk w)) fp_in fp_out (disk w) with
    | Some fs' => Next tt {| disk := fs'; trace := trace w |}
    | None => Hang
    end.

(** ** The value of [system]

    [system] returns the wait status of the shell it ran the command in, in
    the encoding of [<sys/wait.h>]: the exit code in bits 8 to 15, the signal
    that ended the command, if one did, in bits 0 to 6. *)

Definition W_EXITCODE (ret sig : Z) : Z := Z.lor (Z.shiftl ret 8) sig.

Definition WTERMSIG (status : Z) : Z := Z.land status 127.

Definition WIFEXITED (status : Z) : bool := WTERMSIG status =? 0.

Definition WEXITSTATUS (status : Z) : Z := Z.shiftr (Z.land status 65280) 8.

(** ** optimizer_plugin.c *)

Definition COLOR_RED : string := esc +:+ "[1;31m".
Definition COLOR_YELLOW : string := esc +:+ "[1;33m".
Definition COLOR_CYAN : string := esc +:+ "[1;36m".
Definition COLOR_RESET : string := esc +:+ "[0m".

(** The format strings the [PRINT_ERROR] and [PRINT_INFO] macros build. *)
Definition error_line (fmt : string) : string :=
  COLOR_RED +:+ "[PLUGIN] ERROR: " +:+ fmt +:+ COLOR_RESET.

Definition info_line (fmt : string) : string := "[PLUGIN] " +:+ fmt.

Definition PRINT_ERROR {E} (fmt : string) (args : list arg) : M E unit :=
  emit (ev_fprintf (error_line fmt) args).

Definition PRINT_INFO {E} (fmt : string) (args : list arg) : M E unit :=
  emit (ev_fprintf (info_line fmt) args).

Record my_callback_params_t := mk_params { keep_files : bool }.

(** The [return] statements of [my_optimize_func], by source line. *)
Inductive exit_point :=
  | skip_no_asm_file               (* line 48 *)
  | skip_not_dot_s                 (* line 57 *)
  | fail_open_copy                 (* line 90 *)
  | fail_open_orig                 (* line 100 *)
  | fail_optimizer (ret : Z)       (* line 123 *)
  | fail_open_optimized            (* line 131 *)
  | fail_open_target               (* line 140 *)
  | optimizer_executed.            (* line 162, the end of the function *)

(** [strncpy(dst, filename, len - 2); strcpy(dst + len - 2, suffix)]: the
    first [len - 2] bytes of [filename], then [suffix].  The blocks the code
    builds the two names in are modelled below ([name_buffer]); they hold
    exactly these strings ([name_buffers_of_the_plugin]). *)
Definition derive (filename suffix : string) : string :=
  substring 0 (strlen filename - 2) filename +:+ suffix.

Definition filename_optimized (filename : string) : string :=
  derive filename ".opt.s".

Definition filename_copy (filename : string) : string :=
  derive filename ".copy.s".

(** The same two names as the code builds them, byte by byte, in the blocks
    it gets from [xmalloc]. *)

Definition NUL : ascii := Ascii.zero.

(** A heap block: its bytes, [None] where nothing was stored yet. *)
Abbreviation block := (list (option ascii)).

Definition xmalloc (size : nat) : block := replicate size None.

(** Storing [cs] from index [i] on; [None] is a store outside the block. *)
Fixpoint store (b : block) (i : nat) (cs : list ascii) : option block :=
  match cs with
  | [] => Some b
  | c :: cs' =>
      if (i <? length b)%nat then store (<[i := Some c]> b) (S i) cs' else None
  end.

(** [strncpy(dst, src, n)]: [n] bytes, those of [src] and then zeros. *)
Definition strncpy (dst : block) (src : string) (n : nat) : option block :=
  let cs := list_ascii_of_string src in
  store dst 0 (take n cs ++ replicate (n - length cs) NUL).

(** [strcpy(dst + i, src)]: the bytes of [src] and the terminator. *)
Definition strcpy (dst : block) (i : nat) (src : string) : option block :=
  store dst i (list_ascii_of_string src ++ [NUL]).

(** The string a block holds: its bytes up to the first zero. *)
Fixpoint c_str (b : block) : option string :=
  match b with
  | Some c :: b' =>
      if Ascii.eqb c NUL then Some EmptyString else String c <$> c_str b'
  | _ => None
  end.

(** Lines 61-69 and 72-80: a block of [size] bytes, the name without its last
    two bytes copied in, the suffix copied behind it. *)
Definition name_buffer (filename suffix : string) (size : nat) : option string :=
  let len := strlen filename in
  b ← strncpy (xmalloc size) filename (len - 2);
  b ← strcpy b (len - 2) suffix;
  c_str b.

(** The command line of line 116, cut to the 512 bytes of [command]. *)
Definition command (filename : string) : string :=
  snprintf 512
    ("python3 $GDK/tools/optimize_lst.py " +:+ dquote +:+ filename +:+ dquote
     +:+ " " +:+ dquote +:+ filename_optimized filename +:+ dquote +:+ " 1>&2").

Section Optimizer.

(** [system] of the C library: the command runs to completion, changes the
    files as it likes and yields the value [system] returns. *)
Variable system : string -> filesys -> Z * filesys.

Definition system_m {E} (cmd : string) : M E Z :=
  fun w => let '(r, fs') := system cmd (disk w) in
           Next r {| disk := fs'; trace := trace w ++ [ev_system cmd r] |}.

(** Lines 83-112: keep a copy of the original file. *)
Definition keep_copy (filename : string) : M exit_point unit :=
  fp_copy <- fopen_m (filename_copy filename) mode_w ;;
  match fp_copy with
  | None =>
      PRINT_ERROR ("Failed to open %s for writing" +:+ nl)
                  [arg_str (filename_copy filename)] ;;;
      return_at fail_open_copy
  | Some fp_copy =>
      fp_orig <- fopen_m filename mode_r ;;
      match fp_orig with
      | None =>
          PRINT_ERROR ("Failed to open %s for reading" +:+ nl)
                      [arg_str filename] ;;;
          fclose_m fp_copy ;;;
          return_at fail_open_orig
      | Some fp_orig =>
          copy_m fp_orig fp_copy ;;;
          fclose_m fp_orig ;;;
          fclose_m fp_copy
      end
  end.

(** Lines 114-161. *)
Definition optimize_and_replace (filename : string)
    (my_params : my_callback_params_t) : M exit_point unit :=
  r <- system_m (command filename) ;;
  if negb (r =? 0) then
    PRINT_ERROR ("Python optimizer failed with code %d" +:+ nl) [arg_int r] ;;;
    return_at (fail_optimizer r)
  else
  fp_opt <- fopen_m (filename_optimized filename) mode_r ;;
  match fp_opt with
  | None =>
      PRINT_ERROR ("Failed to open %s for reading" +:+ nl)
                  [arg_str (filename_optimized filename)] ;;;
      return_at fail_open_optimized
  | Some fp_opt =>
      fp <- fopen_m filename mode_w ;;
      match fp with
      | None =>
          PRINT_ERROR ("Failed to open %s for writing" +:+ nl)
                      [arg_str filename] ;;;
          fclose_m fp_opt ;;;
          return_at fail_open_target
      | Some fp =>
          copy_m fp_opt fp ;;;
          fclose_m fp ;;;
          fclose_m fp_opt ;;;
          (if negb (keep_files my_params)
           then remove_m (filename_optimized filename)
           else ret tt) ;;;
          PRINT_INFO ("Optimizer executed on: %s" +:+ nl) [arg_str filename] ;;;
          return_at optimizer_executed
      end
  end.

(** [my_optimize_func].  The two tests of the pointers that [xmalloc] returned
    are left out: [xmalloc] does not return a null pointer.  [my_params] is
    passed by value; the [free(my_params)] of line 159 ends the life of the
    request with the call that completed it. *)
Definition my_optimize_func (filename : c_string)
    (my_params : my_callback_params_t) : M exit_point unit :=
  match filename with
  | None => return_at skip_no_asm_file
  | Some filename =>
      if strcmp filename "/dev/null" =? 0 then return_at skip_no_asm_file
      else
        PRINT_INFO ("Invoked" +:+ nl) [] ;;;
        let len := strlen filename in
        if (len <? 2)%nat || negb (strcmp (offset filename (len - 2)) ".s" =? 0)
        then
          PRINT_INFO ("Skipped. Not an .s file: %s" +:+ nl) [arg_str filename] ;;;
          return_at skip_not_dot_s
        else
          (if keep_files my_params then keep_copy filename else ret tt) ;;;
          optimize_and_replace filename my_params
  end.

(** [callback]: [x_asm_file_name] is the field of [global_options] the
    compiler keeps the name of its assembly output in. *)
Definition callback (x_asm_file_name : c_string)
    (user_data : my_callback_params_t) : M exit_point unit :=
  my_optimize_func x_asm_file_name user_data.

End Optimizer.

(** [plugin_init] and the host.  [struct plugin_argument] and
    [struct plugin_name_args] are the host's; only the fields the plugin reads
    are kept ([argc] is the length of [argv]).  For an argument given as
    [-fplugin-arg-NAME-KEY], with no [=VALUE] behind the key, the host leaves
    [value] a null pointer. *)
Record plugin_argument := mk_arg { key : string; value : c_string }.

Record plugin_name_args := mk_name_args {
  base_name : string;
  argv : list plugin_argument
}.

Inductive plugin_event := PLUGIN_FINISH.

(** One [register_callback(name, event, callback, user_data)]. *)
Record registration := mk_registration {
  reg_name : string;
  reg_event : plugin_event;
  reg_user_data : my_callback_params_t
}.

(** What a call comes to: it returns, or it has handed a null pointer to
    [strcasecmp], and C says nothing about what happens from there. *)
Inductive outcome (A : Type) :=
  | returned (a : A)
  | null_pointer_read.
Arguments returned {A} a.
Arguments null_pointer_read {A}.

(** The test both options share, on a value that is there:
    [strcasecmp(value, "true") == 0 || strcasecmp(value, "1") == 0]. *)
Definition value_is_true (v : string) : bool :=
  (strcasecmp v "true" =? 0) || (strcasecmp v "1" =? 0).

(** One test of the loop, lines 186-188 and 193-195:
    [strcmp(key, name) == 0 && (strcasecmp(value, "true") == 0 || ...)].
    [&&] gets to the value only when the key is [name], and the value is
    passed on as it is: [None] is [strcasecmp] called on a null pointer. *)
Definition option_test (name : string) (a : plugin_argument) : option bool :=
  if strcmp (key a) name =? 0 then value_is_true <$> value a else Some false.

(** The [for] loop of lines 182-197 from argument [i] on; [returned None] is
    the [return 0] of line 189, [returned (Some my_params)] the end of the
    loop. *)
Fixpoint scan_args (args : list plugin_argument)
    (my_params : my_callback_params_t)
  : outcome (option my_callback_params_t) :=
  match args with
  | [] => returned (Some my_params)
  | a :: args' =>
      match option_test "disable" a with
      | None => null_pointer_read
      | Some true => returned None
      | Some false =>
          match option_test "keep-files" a with
          | None => null_pointer_read
          | Some keep =>
              scan_args args' (if keep then mk_params true else my_params)
          end
      end
  end.

(** [plugin_init]: the value returned and the callback registered, if any.
    [version_ok] is the result of [plugin_default_version_check]. *)
Definition plugin_init (version_ok : bool) (plugin_info : plugin_name_args)
  : outcome (Z * option registration) :=
  if negb version_ok then returned (1, None)
  else
    match scan_args (argv plugin_info) (mk_params false) with
    | null_pointer_read => null_pointer_read
    | returned None => returned (0, None)
    | returned (Some my_params) =>
        returned
          (0, Some (mk_registration (base_name plugin_info) PLUGIN_FINISH my_params))
    end.

(** One compiler run as the plugin sees it: the host calls [plugin_init] when
    it loads the plugin, and at the end of the run it calls what was
    registered for [PLUGIN_FINISH] with the registered [user_data]. *)
Definition compiler_run (system : string -> filesys -> Z * filesys)
    (version_ok : bool) (plugin_info : plugin_name_args)
    (x_asm_file_name : c_string) : outcome (M exit_point unit) :=
  match plugin_init version_ok plugin_info with
  | returned (_, Some reg) =>
      returned (callback system x_asm_file_name (reg_user_data reg))
  | returned (_, None) => returned (ret tt)
  | null_pointer_read => null_pointer_read
  end.

(** ** optimizer_plugin_dummy.c *)

Module Dummy.

(** The [return] statements of [peephole_optimize], by source line. *)
Inductive exit_point :=
  | skip_no_asm_file               (* line 16 *)
  | fail_open_read                 (* line 22 *)
  | fail_open_write                (* line 49 *)
  | optimizer_executed.            (* line 57, the end of the function *)

(** [peephole_optimize].  The test of the pointer [xmalloc] returned is left
    out, as [xmalloc] does not return a null pointer.  No peephole is applied
    between reading and writing (line 42 is a comment). *)
Definition peephole_optimize (filename : c_string) : M exit_point unit :=
  match filename with
  | None => return_at skip_no_asm_file
  | Some filename =>
      if strcmp filename "/dev/null" =? 0 then return_at skip_no_asm_file
      else
        fp <- fopen_m filename mode_r ;;
        match fp with
        | None =>
            emit (ev_fprintf ("[PLUGIN] ERROR: Failed to open %s for reading" +:+ nl)
                             [arg_str filename]) ;;;
            return_at fail_open_read
        | Some fp =>
            size <- on_disk (fun fs => (ftell_end fp fs, fs)) ;;
            content <- on_disk (fun fs => (fst (fread size fp fs), fs)) ;;
            fclose_m fp ;;;
            fp <- fopen_m filename mode_w ;;
            match fp with
            | None =>
                emit (ev_fprintf ("[PLUGIN] ERROR: Failed to open %s for writing" +:+ nl)
                                 [arg_str filename]) ;;;
                return_at fail_open_write
            | Some fp =>
                on_disk (fun fs => (tt, snd (fwrite (take size content) fp fs))) ;;;
                fclose_m fp ;;;
                emit (ev_fprintf ("[PLUGIN] Optimizer executed on: %s" +:+ nl)
                                 [arg_str filename]) ;;;
                return_at optimizer_executed
            end
        end
  end.

Definition finish_callback (x_asm_file_name : c_string) : M exit_point unit :=
  peephole_optimize x_asm_file_name.

(** [plugin_init] of the dummy: no options, the callback is always
    registered when the version check passes. *)
Definition plugin_init (version_ok : bool) (plugin_info : plugin_name_args)
  : Z * option (string * plugin_event) :=
  if negb version_ok then (1, None)
  else (0, Some (base_name plugin_info, PLUGIN_FINISH)).

End Dummy.

(** ** Transfers that are cut short

    Neither file looks at what [fwrite] or [fclose] returns, and a short
    [fread] ends a copy loop as the end of the file does.  So when the system
    cuts a transfer short (the disk is full, the medium fails), the functions
    take the same path as when it does not, and only the bytes that have
    moved differ.

    A [device] says how far the system carries out each transfer: of the [n]
    bytes an [fread] asks for, how many it lets through at most, and of the
    bytes of the buffer an [fwrite] offers, how many it stores at most.  When
    the data reaches the disk only as the stream is flushed or closed, the
    result of [fclose] is where the program could have seen the loss; the
    plugin drops that result as well, so the model settles what is stored at
    the [fwrite]. *)
Record device := mk_device {
  delivers : filesys -> FILE -> nat -> nat;
  stores : filesys -> FILE -> bytes -> nat
}.

(** The device that carries out every transfer in full. *)
Definition sound_device : device :=
  mk_device (fun _ _ n => n) (fun _ _ buffer => length buffer).

(** A device that is full for a stream once the stream stands [limit] bytes
    into its file: it stores what is written up to there and nothing beyond. *)
Definition full_at (limit : nat) : device :=
  mk_device (fun _ _ n => n) (fun _ fp _ => (limit - fpos fp)%nat).

(** [optimizer_plugin.c] once more, statement by statement as above, with the
    transfers of a device. *)
Module OnDevice.
Section Device.

Variable dev : device.

(** [fread(buffer, 1, n, fp)]: what the device lets through of the [n] bytes. *)
Definition fread (n : nat) (fp : FILE) (fs : filesys) : bytes * FILE :=
  fread (Nat.min n (delivers dev fs fp n)) fp fs.

(** [fwrite(buffer, 1, length buffer, fp)]: the bytes the device stores, a
    prefix of the buffer, go to the file; the number of them is what [fwrite]
    returns. *)
Definition fwrite (buffer : bytes) (fp : FILE) (fs : filesys)
  : nat * FILE * filesys :=
  let stored := take (stores dev fs fp buffer) buffer in
  let '(fp', fs') := fwrite stored fp fs in
  (length stored, fp', fs').

(** The copy loop.  The value of [fwrite] is dropped, as in line 107 and in
    line 147. *)
Fixpoint copy_loop (fuel : nat) (fp_in fp_out : FILE) (fs : filesys)
  : option filesys :=
  match fuel with
  | O => None
  | S fuel' =>
      let '(buffer, fp_in') := fread sizeof_buffer fp_in fs in
      if (0 <? length buffer)%nat
      then let '(_, fp_out', fs') := fwrite buffer fp_out fs in
           copy_loop fuel' fp_in' fp_out' fs'
      else Some fs
  end.

Definition copy_m {E} (fp_in fp_out : FILE) : M E unit :=
  fun w =>
    match copy_loop (copy_fuel fp_in (disk w)) fp_in fp_out (disk w) with
    | Some fs' => Next tt {| disk := fs'; trace := trace w |}
    | None => Hang
    end.

Variable system : string -> filesys -> Z * filesys.

(** Lines 83-112. *)
Definition keep_copy (filename : string) : M exit_point unit :=
  fp_copy <- fopen_m (filename_copy filename) mode_w ;;
  match fp_copy with
  | None =>
      PRINT_ERROR ("Failed to open %s for writing" +:+ nl)
                  [arg_str (filename_copy filename)] ;;;
      return_at fail_open_copy
  | Some fp_copy =>
      fp_orig <- fopen_m filename mode_r ;;
      match fp_orig with
      | None =>
          PRINT_ERROR ("Failed to open %s for reading" +:+ nl)
                      [arg_str filename] ;;;
          fclose_m fp_copy ;;;
          return_at fail_open_orig
      | Some fp_orig =>
          copy_m fp_orig fp_copy ;;;
          fclose_m fp_orig ;;;
          fclose_m fp_copy
      end
  end.

(** Lines 114-161. *)
Definition optimize_and_replace (filename : string)
    (my_params : my_callback_params_t) : M exit_point unit :=
  r <- system_m system (command filename) ;;
  if negb (r =? 0) then
    PRINT_ERROR ("Python optimizer failed with code %d" +:+ nl) [arg_int r] ;;;
    return_at (fail_optimizer r)
  else
  fp_opt <- fopen_m (filename_optimized filename) mode_r ;;
  match fp_opt with
  | None =>
      PRINT_ERROR ("Failed to open %s for reading" +:+ nl)
                  [arg_str (filename_optimized filename)] ;;;
      return_at fail_open_optimized
  | Some fp_opt =>
      fp <- fopen_m filename mode_w ;;
      match fp with
      | None =>
          PRINT_ERROR ("Failed to open %s for writing" +:+ nl)
                      [arg_str filename] ;;;
          fclose_m fp_opt ;;;
          return_at fail_open_target
      | Some fp =>
          copy_m fp_opt fp ;;;
          fclose_m fp ;;;
          fclose_m fp_opt ;;;
          (if negb (keep_files my_params)
           then remove_m (filename_optimized filename)
           else ret tt) ;;;
          PRINT_INFO ("Optimizer executed on: %s" +:+ nl) [arg_str filename] ;;;
          return_at optimizer_executed
      end
  end.

(** Lines 44-162. *)
Definition my_optimize_func (filename : c_string)
    (my_params : my_callback_params_t) : M exit_point unit :=
  match filename with
  | None => return_at skip_no_asm_file
  | Some filename =>
      if strcmp filename "/dev/null" =? 0 then return_at skip_no_asm_file
      else
        PRINT_INFO ("Invoked" +:+ nl) [] ;;;
        let len := strlen filename in
        if (len <? 2)%nat || negb (strcmp (offset filename (len - 2)) ".s" =? 0)
        then
          PRINT_INFO ("Skipped. Not an .s file: %s" +:+ nl) [arg_str filename] ;;;
          return_at skip_not_dot_s
        else
          (if keep_files my_params then keep_copy filename else ret tt) ;;;
          optimize_and_replace filename my_params
  end.

End Device.
End OnDevice.

(** ** The vocabulary of the specification *)

(** A path ends in the two bytes [.s]. *)
Definition ends_with_dot_s (filename : string) : Prop :=
  exists base, filename = base +:+ ".s".

(** The content of the file at [path], if there is one. *)
Definition file_at (w : world) (path : string) : option bytes :=
  files (disk w) !! path.

(** No command was run in the course of the events [t]. *)
Definition no_system (t : list event) : Prop :=
  forall cmd r, ev_system cmd r ∉ t.

(** What [w'] has in its trace beyond the trace of [w]. *)
Definition events_since (w w' : world) : list event :=
  drop (length (trace w)) (trace w').

(** The world a computation leaves behind, however it ended. *)
Definition world_after {E A} (r : result E A) : option world :=
  match r with
  | Next _ w => Some w
  | Return _ w => Some w
  | Hang => None
  end.

(** [c] is the letter [lower] in either case. *)
Definition letter (lower upper : ascii) (c : ascii) : Prop :=
  c = lower \/ c = upper.

(** [v] spells the word true, each letter in either case. *)
Definition spells_true (v : string) : Prop :=
  exists c1 c2 c3 c4,
    v = String c1 (String c2 (String c3 (String c4 EmptyString)))
    /\ letter "t" "T" c1 /\ letter "r" "R" c2
    /\ letter "u" "U" c3 /\ letter "e" "E" c4.

(** Some argument named [name] carries a value that reads as true. *)
Definition option_set (name : string) (args : list plugin_argument) : Prop :=
  exists a v,
    a ∈ args /\ key a = name /\ value a = Some v /\ value_is_true v = true.

Section Runs.

Variable system : string -> filesys -> Z * filesys.

(** The disk on which the rewriter is started: the disk of the call, with the
    backup on it when files are kept. *)
Inductive backup_done (filename : string) (my_params : my_callback_params_t)
    (fs : filesys) : filesys -> Prop :=
  | backup_skipped :
      keep_files my_params = false ->
      backup_done filename my_params fs fs
  | backup_written c :
      keep_files my_params = true ->
      wr_ok fs (filename_copy filename) = true ->
      files fs !! filename = Some c ->
      rd_ok fs filename = true ->
      backup_done filename my_params fs
        (with_files fs (<[filename_copy filename := c]> (files fs))).

(** The runs of [my_optimize_func] on a name that ends in [.s], one rule per
    [return] statement it can reach: the statement, the disk it leaves and
    the events of the run. *)
Inductive patch_run (filename : string) (my_params : my_callback_params_t)
    (fs : filesys) : exit_point -> filesys -> list event -> Prop :=
  | run_fail_open_copy :
      keep_files my_params = true ->
      wr_ok fs (filename_copy filename) = false ->
      patch_run filename my_params fs fail_open_copy fs
        [ev_fprintf (info_line ("Invoked" +:+ nl)) [];
         ev_fprintf (error_line ("Failed to open %s for writing" +:+ nl))
                    [arg_str (filename_copy filename)]]
  | run_fail_open_orig :
      keep_files my_params = true ->
      wr_ok fs (filename_copy filename) = true ->
      files fs !! filename = None \/ rd_ok fs filename = false ->
      patch_run filename my_params fs fail_open_orig
        (with_files fs (<[filename_copy filename := []]> (files fs)))
        [ev_fprintf (info_line ("Invoked" +:+ nl)) [];
         ev_fprintf (error_line ("Failed to open %s for reading" +:+ nl))
                    [arg_str filename]]
  | run_fail_optimizer fsb r fs1 :
      backup_done filename my_params fs fsb ->
      system (command filename) fsb = (r, fs1) ->
      r <> 0 ->
      patch_run filename my_params fs (fail_optimizer r) fs1
        [ev_fprintf (info_line ("Invoked" +:+ nl)) [];
         ev_system (command filename) r;
         ev_fprintf (error_line ("Python optimizer failed with code %d" +:+ nl))
                    [arg_int r]]
  | run_fail_open_optimized fsb fs1 :
      backup_done filename my_params fs fsb ->
      system (command filename) fsb = (0, fs1) ->
      files fs1 !! filename_optimized filename = None
        \/ rd_ok fs1 (filename_optimized filename) = false ->
      patch_run filename my_params fs fail_open_optimized fs1
        [ev_fprintf (info_line ("Invoked" +:+ nl)) [];
         ev_system (command filename) 0;
         ev_fprintf (error_line ("Failed to open %s for reading" +:+ nl))
                    [arg_str (filename_optimized filename)]]
  | run_fail_open_target fsb fs1 o :
      backup_done filename my_params fs fsb ->
      system (command filename) fsb = (0, fs1) ->
      files fs1 !! filename_optimized filename = Some o ->
      rd_ok fs1 (filename_optimized filename) = true ->
      wr_ok fs1 filename = false ->
      patch_run filename my_params fs fail_open_target fs1
        [ev_fprintf (info_line ("Invoked" +:+ nl)) [];
         ev_system (command filename) 0;
         ev_fprintf (error_line ("Failed to open %s for writing" +:+ nl))
                    [arg_str filename]]
  | run_optimizer_executed fsb fs1 o :
      backup_done filename my_params fs fsb ->
      system (command filename) fsb = (0, fs1) ->
      files fs1 !! filename_optimized filename = Some o ->
      rd_ok fs1 (filename_optimized filename) = true ->
      wr_ok fs1 filename = true ->
      patch_run filename my_params fs optimizer_executed
        (let fs2 := with_files fs1 (<[filename := o]> (files fs1)) in
         if keep_files my_params then fs2
         else remove (filename_optimized filename) fs2)
        [ev_fprintf (info_line ("Invoked" +:+ nl)) [];
         ev_system (command filename) 0;
         ev_fprintf (info_line ("Optimizer executed on: %s" +:+ nl))
                    [arg_str filename]].

(** What the plugin expects of the rewriter behind [system] when it is
    started on [filename]: it leaves its input as it is. *)
Definition leaves_input (filename : string) : Prop :=
  forall fs, files (snd (system (command filename) fs)) !! filename
             = files fs !! filename.

(** The rewriter writes to its output path and to no other file. *)
Definition writes_output_only (filename : string) : Prop :=
  forall fs path,
    path <> filename_optimized filename ->
    files (snd (system (command filename) fs)) !! path = files fs !! path.

(** The rewriter is the function [rw] of the content of its input: it ends
    with status zero exactly when [rw] is defined on the input, and then the
    output file holds [rw] of the input.  It changes neither its input nor
    what may be opened. *)
Record rewriter_is (filename : string) (rw : bytes -> option bytes) : Prop := {
  rw_input : leaves_input filename;
  rw_rd_ok : forall fs, rd_ok (snd (system (command filename) fs)) = rd_ok fs;
  rw_wr_ok : forall fs, wr_ok (snd (system (command filename) fs)) = wr_ok fs;
  rw_status : forall fs,
    fst (system (command filename) fs) = 0
    <-> is_Some (files fs !! filename ≫= rw);
  rw_output : forall fs,
    fst (system (command filename) fs) = 0 ->
    files (snd (system (command filename) fs)) !! filename_optimized filename
    = files fs !! filename ≫= rw
}.

End Runs.

(** The device carries out every transfer in full. *)
Definition completes (dev : device) : Prop :=
  (forall fs fp n, (n <= delivers dev fs fp n)%nat)
  /\ (forall fs fp buffer, (length buffer <= stores dev fs fp buffer)%nat).

Section RunsOnDevice.

Variable dev : device.
Variable system : string -> filesys -> Z * filesys.

(** The disk on which the rewriter is started, on a device: when files are
    kept, the copy holds what the device has let through of the file, bytes
    of the file in their order, and all of them when the device completes
    its transfers. *)
Inductive backup_made (filename : string) (my_params : my_callback_params_t)
    (fs : filesys) : filesys -> Prop :=
  | backup_not_asked :
      keep_files my_params = false ->
      backup_made filename my_params fs fs
  | backup_stored c s :
      keep_files my_params = true ->
      wr_ok fs (filename_copy filename) = true ->
      files fs !! filename = Some c ->
      rd_ok fs filename = true ->
      s `sublist_of` c ->
      (completes dev -> s = c) ->
      backup_made filename my_params fs
        (with_files fs (<[filename_copy filename := s]> (files fs))).

(** The runs of [OnDevice.my_optimize_func] on a name that ends in [.s], one
    rule per [return] statement: the statement, the disk it leaves and the
    events of the run.  Only the last rule has a transfer after the rewriter:
    [s] is what has reached the file of the output [o]. *)
Inductive run_on (filename : string) (my_params : my_callback_params_t)
    (fs : filesys) : exit_point -> filesys -> list event -> Prop :=
  | on_fail_open_copy :
      keep_files my_params = true ->
      wr_ok fs (filename_copy filename) = false ->
      run_on filename my_params fs fail_open_copy fs
        [ev_fprintf (info_line ("Invoked" +:+ nl)) [];
         ev_fprintf (error_line ("Failed to open %s for writing" +:+ nl))
                    [arg_str (filename_copy filename)]]
  | on_fail_open_orig :
      keep_files my_params = true ->
      wr_ok fs (filename_copy filename) = true ->
      files fs !! filename = None \/ rd_ok fs filename = false ->
      run_on filename my_params fs fail_open_orig
        (with_files fs (<[filename_copy filename := []]> (files fs)))
        [ev_fprintf (info_line ("Invoked" +:+ nl)) [];
         ev_fprintf (error_line ("Failed to open %s for reading" +:+ nl))
                    [arg_str filename]]
  | on_fail_optimizer fsb r fs1 :
      backup_made filename my_params fs fsb ->
      system (command filename) fsb = (r, fs1) ->
      r <> 0 ->
      run_on filename my_params fs (fail_optimizer r) fs1
        [ev_fprintf (info_line ("Invoked" +:+ nl)) [];
         ev_system (command filename) r;
         ev_fprintf (error_line ("Python optimizer failed with code %d" +:+ nl))
                    [arg_int r]]
  | on_fail_open_optimized fsb fs1 :
      backup_made filename my_params fs fsb ->
      system (command filename) fsb = (0, fs1) ->
      files fs1 !! filename_optimized filename = None
        \/ rd_ok fs1 (filename_optimized filename) = false ->
      run_on filename my_params fs fail_open_optimized fs1
        [ev_fprintf (info_line ("Invoked" +:+ nl)) [];
         ev_system (command filename) 0;
         ev_fprintf (error_line ("Failed to open %s for reading" +:+ nl))
                    [arg_str (filename_optimized filename)]]
  | on_fail_open_target fsb fs1 o :
      backup_made filename my_params fs fsb ->
      system (command filename) fsb = (0, fs1) ->
      files fs1 !! filename_optimized filename = Some o ->
      rd_ok fs1 (filename_optimized filename) = true ->
      wr_ok fs1 filename = false ->
      run_on filename my_params fs fail_open_target fs1
        [ev_fprintf (info_line ("Invoked" +:+ nl)) [];
         ev_system (command filename) 0;
         ev_fprintf (error_line ("Failed to open %s for writing" +:+ nl))
                    [arg_str filename]]
  | on_optimizer_executed fsb fs1 o s :
      backup_made filename my_params fs fsb ->
      system (command filename) fsb = (0, fs1) ->
      files fs1 !! filename_optimized filename = Some o ->
      rd_ok fs1 (filename_optimized filename) = true ->
      wr_ok fs1 filename = true ->
      s `sublist_of` o ->
      (completes dev -> s = o) ->
      run_on filename my_params fs optimizer_executed
        (let fs2 := with_files fs1 (<[filename := s]> (files fs1)) in
         if keep_files my_params then fs2
         else remove (filename_optimized filename) fs2)
        [ev_fprintf (info_line ("Invoked" +:+ nl)) [];
         ev_system (command filename) 0;
         ev_fprintf (info_line ("Optimizer executed on: %s" +:+ nl))
                    [arg_str filename]].

End RunsOnDevice.

(** ** A rewriter and some disks to run the plugin on *)

(** The transformation of the sample rewriter: every digit 1 becomes 2; an
    empty input is an error. *)
Definition one_to_two (c : bytes) : bytes :=
  map (fun b => if Byte.eqb b Byte.x31 then Byte.x32 else b) c.

Definition sample_rw (c : bytes) : option bytes :=
  match c with
  | [] => None
  | _ => Some (one_to_two c)
  end.

(** A [system] that knows one command line, the one the plugin builds for
    [filename], and runs the sample rewriter for it.  256 and 32512 are what
    [system] returns for a command that exits with 1 and for a command the
    shell does not find. *)
Definition sample_system (filename : string) (cmd : string) (fs : filesys)
  : Z * filesys :=
  if String.eqb cmd (command filename) then
    match files fs !! filename ≫= sample_rw with
    | Some o =>
        (0, with_files fs (<[filename_optimized filename := o]> (files fs)))
    | None => (256, fs)
    end
  else (32512, fs).

(** A command that touches no file and exits with [code]. *)
Definition exits_with (code : Z) (cmd : string) (fs : filesys) : Z * filesys :=
  (W_EXITCODE code 0, fs).

Definition mov_eax (digit : Byte.byte) : bytes :=
  list_byte_of_string "mov eax, " ++ [digit; Byte.x0a].

Definition allow_all : string -> bool := fun _ => true.

(** [main.s] holds one instruction; everything may be opened. *)
Definition sample_disk : filesys :=
  mk_filesys {[ "main.s" := mov_eax Byte.x31 ]} allow_all allow_all.

(** [main.s] is empty. *)
Definition empty_source_disk : filesys :=
  mk_filesys {[ "main.s" := [] ]} allow_all allow_all.

(** [main.copy.s] cannot be created. *)
Definition no_copy_disk : filesys :=
  mk_filesys {[ "main.s" := mov_eax Byte.x31 ]} allow_all
             (fun path => negb (String.eqb path "main.copy.s")).

(** Nothing may be read. *)
Definition unreadable_disk : filesys :=
  mk_filesys {[ "main.s" := mov_eax Byte.x31 ]} (fun _ => false) allow_all.

Definition start (fs : filesys) : world := mk_world fs [].

(** ** More vocabulary: the command line, the events, the options *)

(** The text line 116 formats, before [snprintf] cuts it. *)
Definition command_text (filename : string) : string :=
  "python3 $GDK/tools/optimize_lst.py " +:+ dquote +:+ filename +:+ dquote
  +:+ " " +:+ dquote +:+ filename_optimized filename +:+ dquote +:+ " 1>&2".

(** A name with [n] bytes before its [.s]. *)
Fixpoint long_name (n : nat) : string :=
  match n with
  | O => ".s"
  | S n' => String "a" (long_name n')
  end.

(** The number of [fread] calls the copy loop makes for [remaining] bytes of
    input: one per buffer, full or not, and the one that returns 0. *)
Definition fread_calls (remaining : nat) : nat :=
  S ((remaining + sizeof_buffer - 1) / sizeof_buffer).

(** The command lines of the [system] calls among the events [t]. *)
Definition commands (t : list event) : list string :=
  omap (fun e => match e with
                 | ev_system cmd _ => Some cmd
                 | ev_fprintf _ _ => None
                 end) t.

(** What [PRINT_ERROR] prints. *)
Definition is_error (e : event) : Prop :=
  exists fmt args, e = ev_fprintf (error_line fmt) args.

(** The two keys [plugin_init] compares the key of an argument with. *)
Definition recognised (a : plugin_argument) : bool :=
  (strcmp (key a) "disable" =? 0) || (strcmp (key a) "keep-files" =? 0).

(** The loop gets to a value that is not there: a [disable] or [keep-files]
    argument has no value, and no [disable] before it reads as true. *)
Definition reads_missing_value (args : list plugin_argument) : Prop :=
  exists before a after,
    args = before ++ a :: after
    /\ recognised a = true /\ value a = None
    /\ ~ option_set "disable" before.

(** Every [disable] and [keep-files] argument carries a value. *)
Definition options_have_values (args : list plugin_argument) : Prop :=
  forall a, a ∈ args -> recognised a = true -> is_Some (value a).

(** [main.s] cannot be opened for writing. *)
Definition read_only_source_disk : filesys :=
  mk_filesys {[ "main.s" := mov_eax Byte.x31 ]} allow_all
             (fun path => negb (String.eqb path "main.s")).

(** A file of 5000 bytes, more than one buffer, and an empty one. *)
Definition two_buffer_disk : filesys :=
  mk_filesys {[ "in" := replicate 5000 Byte.x31; "out" := [] ]} allow_all allow_all.

(** * Facts about the model *)

Local Arguments String.append : simpl nomatch.

(** ** Strings *)

Lemma strcmp_zero a b : (strcmp a b =? 0) = true <-> a = b.
Proof.
  unfold strcmp. split.
  - destruct (String.compare a b) eqn:E; try discriminate.
    intros _. by apply String.compare_eq_iff.
  - intros ->. pose proof (String.compare_antisym b b) as H.
    by destruct (String.compare b b).
Qed.

Lemma length_append a b : String.length (a +:+ b) = (String.length a + String.length b)%nat.
Proof. induction a; cbn; congruence. Qed.

Lemma substring_0_append a b : substring 0 (String.length a) (a +:+ b) = a.
Proof. induction a; cbn. - by destruct b. - congruence. Qed.

Lemma substring_skip_append a b n : substring (String.length a) n (a +:+ b) = substring 0 n b.
Proof. induction a; cbn; done. Qed.

Lemma substring_0_all b : substring 0 (String.length b) b = b.
Proof. induction b; cbn; congruence. Qed.

Lemma substring_split s n : (n <= String.length s)%nat ->
  s = substring 0 n s +:+ substring n (String.length s - n) s.
Proof.
  revert n. induction s as [|c s IH]; intros n Hn; cbn in *.
  - destruct n; [done|lia].
  - destruct n as [|n]; cbn.
    + by rewrite substring_0_all.
    + f_equal. apply IH. lia.
Qed.


Lemma dot_s_test filename :
  let len := strlen filename in
  ((len <? 2)%nat || negb (strcmp (offset filename (len - 2)) ".s" =? 0)) = false
  <-> ends_with_dot_s filename.
Proof.
  cbn zeta. unfold strlen, offset, ends_with_dot_s.
  rewrite orb_false_iff, negb_false_iff, strcmp_zero, Nat.ltb_ge. split.
  - intros [Hlen Hs].
    exists (substring 0 (String.length filename - 2) filename).
    rewrite <- Hs. apply substring_split. lia.
  - intros [base ->]. rewrite length_append. cbn. split; [lia|].
    replace (String.length base + 2 - 2)%nat with (String.length base) by lia.
    rewrite substring_skip_append.
    replace (String.length base + 2 - String.length base)%nat with 2%nat by lia.
    done.
Qed.

Lemma derive_dot_s base suffix : derive (base +:+ ".s") suffix = base +:+ suffix.
Proof.
  unfold derive, strlen. rewrite length_append. cbn.
  replace (String.length base + 2 - 2)%nat with (String.length base) by lia.
  by rewrite substring_0_append.
Qed.
(** ** Files and the copy loop *)

Lemma with_files_same fs : with_files fs (files fs) = fs.
Proof. by destruct fs. Qed.

Lemma with_files_twice fs m1 m2 : with_files (with_files fs m1) m2 = with_files fs m2.
Proof. done. Qed.

Lemma sizeof_buffer_pos : (0 < sizeof_buffer)%nat.
Proof. unfold sizeof_buffer. apply Nat.lt_0_succ. Qed.

Lemma drop_take_length {A} (n : nat) (l : list A) :
  drop (length (take n l)) l = drop n l.
Proof.
  rewrite length_take. destruct (Nat.le_ge_cases n (length l)) as [H|H].
  - by rewrite Nat.min_l.
  - rewrite Nat.min_r by done. by rewrite !drop_ge.
Qed.

(** Copying from one file to the end of another one. *)
Lemma copy_loop_appends fuel fp_in fp_out fs c old :
  fpath fp_in <> fpath fp_out ->
  files fs !! fpath fp_in = Some c ->
  files fs !! fpath fp_out = Some old ->
  fpos fp_out = length old ->
  (length c - fpos fp_in < fuel)%nat ->
  copy_loop fuel fp_in fp_out fs
  = Some (with_files fs (<[fpath fp_out := old ++ drop (fpos fp_in) c]> (files fs))).
Proof.
  revert fp_in fp_out fs old.
  induction fuel as [|fuel IH]; intros [pin n] [pout k] fs old Hne Hin Hout Hk Hfuel;
    simpl in *; [lia|].
  unfold fread, contents. simpl. rewrite Hin. simpl.
  destruct (0 <? length (take sizeof_buffer (drop n c)))%nat eqn:Hlen.
  - apply Nat.ltb_lt in Hlen.
    unfold fwrite, contents. simpl. rewrite Hout. simpl. subst k.
    rewrite (take_ge old), Nat.sub_diag, (drop_ge old) by lia. simpl. rewrite app_nil_r.
    erewrite IH; simpl.
    + rewrite insert_insert_eq. do 3 f_equal.
      rewrite <- app_assoc. f_equal.
      rewrite <- (take_drop sizeof_buffer (drop n c)) at 2. f_equal.
      by rewrite <- (drop_take_length sizeof_buffer (drop n c)), drop_drop.
    + done.
    + by rewrite lookup_insert_ne.
    + by rewrite lookup_insert_eq.
    + by rewrite length_app.
    + rewrite length_take, length_drop in Hlen |- *. lia.
  - apply Nat.ltb_ge in Hlen.
    assert (Hnil : drop n c = []).
    { destruct (drop n c) eqn:E; [done|].
      pose proof sizeof_buffer_pos. destruct sizeof_buffer; simpl in *; lia. }
    rewrite Hnil, app_nil_r, insert_id by done. by rewrite with_files_same.
Qed.

(** ** The derived names differ from the name they come from *)

Lemma copy_differs base : filename_copy (base +:+ ".s") <> base +:+ ".s".
Proof.
  unfold filename_copy. rewrite derive_dot_s. intros H.
  apply (f_equal String.length) in H. rewrite !length_append in H. simpl in H. lia.
Qed.

Lemma optimized_differs base : filename_optimized (base +:+ ".s") <> base +:+ ".s".
Proof.
  unfold filename_optimized. rewrite derive_dot_s. intros H.
  apply (f_equal String.length) in H. rewrite !length_append in H. simpl in H. lia.
Qed.

Lemma optimized_copy_differ base :
  filename_optimized (base +:+ ".s") <> filename_copy (base +:+ ".s").
Proof.
  unfold filename_optimized, filename_copy. rewrite !derive_dot_s. intros H.
  apply (f_equal String.length) in H. rewrite !length_append in H. simpl in H. lia.
Qed.

(** ** Every run of [my_optimize_func] on a [.s] name follows a rule of [patch_run] *)

Section RunFacts.
Variable system : string -> filesys -> Z * filesys.

Lemma keep_copy_run filename w :
  ends_with_dot_s filename ->
  keep_copy filename w =
    let fs := disk w in
    if wr_ok fs (filename_copy filename) then
      match files fs !! filename with
      | Some c =>
          if rd_ok fs filename
          then Next tt (mk_world (with_files fs (<[filename_copy filename := c]> (files fs)))
                                 (trace w))
          else Return fail_open_orig
                 (mk_world (with_files fs (<[filename_copy filename := []]> (files fs)))
                    (trace w ++ [ev_fprintf (error_line ("Failed to open %s for reading" +:+ nl))
                                            [arg_str filename]]))
      | None =>
          Return fail_open_orig
            (mk_world (with_files fs (<[filename_copy filename := []]> (files fs)))
               (trace w ++ [ev_fprintf (error_line ("Failed to open %s for reading" +:+ nl))
                                       [arg_str filename]]))
      end
    else Return fail_open_copy
           (mk_world fs
              (trace w ++ [ev_fprintf (error_line ("Failed to open %s for writing" +:+ nl))
                                      [arg_str (filename_copy filename)]])).
Proof.
  intros [base ->]. pose proof (copy_differs base) as Hne.
  destruct w as [fs t]. cbn zeta. cbn [disk trace].
  unfold keep_copy, bind, fopen_m, on_disk, fopen, PRINT_ERROR, emit, return_at, fclose_m, ret.
  generalize dependent (base +:+ ".s"). intros f.
  generalize (filename_copy f). intros g Hne.
  cbn [disk trace].
  destruct (wr_ok fs g) eqn:Hw; [|done].
  cbn [disk trace files with_files rd_ok wr_ok].
  rewrite lookup_insert_ne by done.
  destruct (files fs !! f) as [c|] eqn:Hc; [|done].
  destruct (rd_ok fs f) eqn:Hr; [|done].
  cbn beta iota. unfold copy_m, copy_fuel, contents.
  cbn [disk trace files with_files fpath fpos].
  rewrite lookup_insert_ne by done. rewrite Hc. cbn [default from_option id].
  erewrite (copy_loop_appends _ _ _ _ c []); cbn [disk trace files with_files fpath fpos];
    rewrite ?insert_insert_eq, ?lookup_insert_eq, ?lookup_insert_ne by done;
    first [done | lia].
Qed.

Lemma dev_null_not_dot_s filename :
  ends_with_dot_s filename -> (strcmp filename "/dev/null" =? 0) = false.
Proof.
  intros H. destruct (strcmp filename "/dev/null" =? 0) eqn:E; [|done].
  apply strcmp_zero in E. subst filename. by apply dot_s_test in H.
Qed.

Lemma optimize_and_replace_run filename my_params w fsb :
  ends_with_dot_s filename ->
  backup_done filename my_params (disk w) fsb ->
  exists e fs' t,
    optimize_and_replace system filename my_params (mk_world fsb (trace w))
    = Return e (mk_world fs' (trace w ++ t))
    /\ patch_run system filename my_params (disk w) e fs'
         (ev_fprintf (info_line ("Invoked" +:+ nl)) [] :: t).
Proof.
  intros [base ->] Hb. pose proof (optimized_differs base) as Hne.
  unfold optimize_and_replace, bind, system_m, fopen_m, remove_m, on_disk, fopen,
    PRINT_ERROR, PRINT_INFO, emit, return_at, fclose_m, ret.
  cbn [disk trace].
  destruct (system (command (base +:+ ".s")) fsb) as [r fs1] eqn:Hsys.
  destruct (r =? 0) eqn:Hr; cbn [negb disk trace].
  2:{ apply Z.eqb_neq in Hr. do 3 eexists. split.
      - rewrite <- app_assoc. reflexivity.
      - eapply run_fail_optimizer; eauto. }
  apply Z.eqb_eq in Hr. subst r.
  destruct (files fs1 !! filename_optimized (base +:+ ".s")) as [o|] eqn:Ho.
  2:{ do 3 eexists. split.
      - cbn [disk trace]. rewrite <- app_assoc. reflexivity.
      - eapply run_fail_open_optimized; eauto. }
  destruct (rd_ok fs1 (filename_optimized (base +:+ ".s"))) eqn:Hrd.
  2:{ do 3 eexists. split.
      - cbn [disk trace]. rewrite <- app_assoc. reflexivity.
      - eapply run_fail_open_optimized; eauto. }
  cbn [disk trace].
  destruct (wr_ok fs1 (base +:+ ".s")) eqn:Hwr.
  2:{ do 3 eexists. split.
      - cbn [disk trace]. rewrite <- app_assoc. reflexivity.
      - eapply run_fail_open_target; eauto. }
  cbn beta iota. unfold copy_m, copy_fuel, contents.
  cbn [disk trace files with_files fpath fpos].
  rewrite lookup_insert_ne by done. rewrite Ho. cbn [default from_option id].
  erewrite (copy_loop_appends _ _ _ _ o []);
    cbn [disk trace files with_files fpath fpos];
    rewrite ?insert_insert_eq, ?lookup_insert_eq, ?lookup_insert_ne by done;
    [ | done | done | done | done | lia ].
  pose proof (run_optimizer_executed system _ my_params _ _ _ _ Hb Hsys Ho Hrd Hwr) as Hrun.
  cbn zeta in Hrun.
  destruct (keep_files my_params) eqn:Hk; cbn [negb disk trace]; do 3 eexists;
    (split; [rewrite <- app_assoc; reflexivity | exact Hrun]).
Qed.

Lemma my_optimize_func_run filename my_params w :
  ends_with_dot_s filename ->
  exists e fs' t,
    my_optimize_func system (Some filename) my_params w
    = Return e (mk_world fs' (trace w ++ t))
    /\ patch_run system filename my_params (disk w) e fs' t.
Proof.
  intros Hs. unfold my_optimize_func.
  rewrite (dev_null_not_dot_s _ Hs).
  pose proof (proj2 (dot_s_test filename) Hs) as Htest. cbn zeta in Htest.
  unfold bind at 1. unfold PRINT_INFO at 1. unfold emit at 1. rewrite Htest.
  unfold bind at 1.
  destruct (keep_files my_params) eqn:Hk.
  - rewrite (keep_copy_run _ _ Hs). cbn zeta. cbn [disk trace].
    destruct (wr_ok (disk w) (filename_copy filename)) eqn:Hw.
    2:{ do 3 eexists. split.
        - rewrite <- app_assoc. reflexivity.
        - by apply run_fail_open_copy. }
    destruct (files (disk w) !! filename) as [c|] eqn:Hc.
    2:{ do 3 eexists. split.
        - rewrite <- app_assoc. reflexivity.
        - apply run_fail_open_orig; auto. }
    destruct (rd_ok (disk w) filename) eqn:Hr.
    2:{ do 3 eexists. split.
        - rewrite <- app_assoc. reflexivity.
        - apply run_fail_open_orig; auto. }
    destruct (optimize_and_replace_run filename my_params
                (mk_world (disk w) (trace w ++ [ev_fprintf (info_line ("Invoked" +:+ nl)) []]))
                (with_files (disk w) (<[filename_copy filename := c]> (files (disk w)))) Hs)
      as (e & fs' & t & Heq & Hrun).
    { by apply backup_written. }
    cbn [disk trace] in Heq, Hrun. rewrite Heq. eexists e, fs', _. split; [|exact Hrun].
    by rewrite <- app_assoc.
  - unfold ret.
    destruct (optimize_and_replace_run filename my_params
                (mk_world (disk w) (trace w ++ [ev_fprintf (info_line ("Invoked" +:+ nl)) []]))
                (disk w) Hs)
      as (e & fs' & t & Heq & Hrun).
    { by apply backup_skipped. }
    cbn [disk trace] in Heq, Hrun. rewrite Heq. eexists e, fs', _. split; [|exact Hrun].
    by rewrite <- app_assoc.
Qed.

End RunFacts.

(** ** The name buffers *)

Lemma store_fits cs : forall b i,
  (i + length cs <= length b)%nat ->
  store b i cs = Some (take i b ++ (Some <$> cs) ++ drop (i + length cs) b).
Proof.
  induction cs as [|c cs IH]; intros b i Hlen; cbn [store length] in *.
  - rewrite fmap_nil, Nat.add_0_r. cbn [app]. by rewrite take_drop.
  - destruct (Nat.ltb_spec i (length b)); [|lia].
    rewrite IH by (rewrite length_insert; lia). f_equal.
    rewrite (take_S_r _ i (Some c)) by (apply list_lookup_insert_eq; lia).
    rewrite take_insert_ge, drop_insert_lt by lia.
    rewrite fmap_cons, <- app_assoc. cbn [app].
    by replace (S i + length cs)%nat with (i + S (length cs))%nat by lia.
Qed.

Lemma store_overflows cs : forall b i,
  cs <> [] ->
  (length b < i + length cs)%nat -> store b i cs = None.
Proof.
  induction cs as [|c cs IH]; intros b i Hne Hlen; cbn [store length] in *; [done|].
  destruct (Nat.ltb_spec i (length b)); [|done].
  apply IH; [|rewrite length_insert; lia].
  destruct cs; [cbn [length] in Hlen; lia|done].
Qed.

Lemma c_str_reads cs rest :
  NUL ∉ cs ->
  c_str ((Some <$> cs) ++ Some NUL :: rest) = Some (string_of_list_ascii cs).
Proof.
  induction cs as [|c cs IH]; intros Hnul; [done|].
  rewrite fmap_cons. cbn [app c_str string_of_list_ascii].
  apply not_elem_of_cons in Hnul as [Hc Hcs].
  destruct (Ascii.eqb_spec c NUL); [done|]. by rewrite IH.
Qed.

Lemma substring_take n s :
  substring 0 n s = string_of_list_ascii (take n (list_ascii_of_string s)).
Proof.
  revert n. induction s as [|c s IH]; intros [|n]; cbn; try done. by rewrite IH.
Qed.

Lemma string_of_list_ascii_app a b :
  string_of_list_ascii (a ++ b) = string_of_list_ascii a +:+ string_of_list_ascii b.
Proof. induction a as [|c a IH]; cbn; [done|]. by rewrite IH. Qed.

Lemma length_list_ascii s : length (list_ascii_of_string s) = String.length s.
Proof. induction s; cbn; congruence. Qed.

(** A block of exactly the bytes of the prefix, the suffix and the terminator
    holds the derived name, and one byte less does not hold it. *)
Lemma name_buffer_holds filename suffix :
  (2 <= strlen filename)%nat ->
  NUL ∉ list_ascii_of_string filename ->
  NUL ∉ list_ascii_of_string suffix ->
  name_buffer filename suffix (strlen filename - 2 + String.length suffix + 1)
  = Some (derive filename suffix)
  /\ name_buffer filename suffix (strlen filename - 2 + String.length suffix) = None.
Proof.
  intros Hlen Hf Hs. unfold name_buffer, strncpy, strcpy, xmalloc, derive, strlen in *.
  assert (Hn : (String.length filename - 2 - length (list_ascii_of_string filename) = 0)%nat).
  { rewrite length_list_ascii. lia. }
  rewrite Hn. cbn [replicate]. rewrite app_nil_r.
  set (pre := take (String.length filename - 2) (list_ascii_of_string filename)).
  assert (Hpre : length pre = (String.length filename - 2)%nat).
  { unfold pre. rewrite length_take, length_list_ascii. lia. }
  split.
  - rewrite store_fits by (rewrite length_replicate; lia). cbn [mbind option_bind].
    rewrite store_fits.
    2:{ rewrite ?length_app, ?length_fmap, ?length_drop, ?length_take, ?length_replicate,
          ?length_list_ascii.
        cbn [length]. lia. }
    cbn [mbind option_bind Nat.add]. rewrite take_0. cbn [app].
    rewrite (take_app_length' (Some <$> pre)) by (by rewrite length_fmap).
    rewrite fmap_app, <- !app_assoc. cbn [fmap list_fmap app].
    rewrite (app_assoc (Some <$> pre)), <- fmap_app.
    rewrite c_str_reads.
    + by rewrite string_of_list_ascii_app, string_of_list_ascii_of_string, substring_take.
    + rewrite elem_of_app. intros [H|H]; [|done].
      apply Hf. unfold pre in H. by eapply subseteq_take.
  - rewrite store_fits by (rewrite length_replicate; lia). cbn [mbind option_bind].
    rewrite store_overflows; [done|by destruct (list_ascii_of_string suffix)|].
    rewrite ?length_app, ?length_fmap, ?length_drop, ?length_take, ?length_replicate,
      ?length_list_ascii.
    cbn [length]. lia.
Qed.

(** The sizes of lines 61 and 72 are the sizes the two names need. *)
Lemma name_buffers_of_the_plugin filename :
  ends_with_dot_s filename ->
  NUL ∉ list_ascii_of_string filename ->
  let len := strlen filename in
  name_buffer filename ".opt.s" (len + 5) = Some (filename_optimized filename)
  /\ name_buffer filename ".copy.s" (len + 6) = Some (filename_copy filename).
Proof.
  intros [base ->] Hnul len.
  assert (Hlen : (2 <= strlen (base +:+ ".s"))%nat).
  { unfold strlen. rewrite length_append. cbn. lia. }
  split.
  - replace (len + 5)%nat with (strlen (base +:+ ".s") - 2 + String.length ".opt.s" + 1)%nat
      by (cbn [String.length]; unfold len; lia).
    apply name_buffer_holds; [done|done|]. cbn [list_ascii_of_string]. intros H.
    repeat (apply elem_of_cons in H as [H|H]; [discriminate|]). by apply elem_of_nil in H.
  - replace (len + 6)%nat with (strlen (base +:+ ".s") - 2 + String.length ".copy.s" + 1)%nat
      by (cbn [String.length]; unfold len; lia).
    apply name_buffer_holds; [done|done|]. cbn [list_ascii_of_string]. intros H.
    repeat (apply elem_of_cons in H as [H|H]; [discriminate|]). by apply elem_of_nil in H.
Qed.

(** ** Traces *)

Lemma events_since_app w fs' t :
  events_since w (mk_world fs' (trace w ++ t)) = t.
Proof. unfold events_since. cbn [trace]. by rewrite drop_app_length. Qed.

Lemma world_eta w : mk_world (disk w) (trace w ++ []) = w.
Proof. destruct w. cbn. by rewrite app_nil_r. Qed.

Lemma no_system_nil : no_system [].
Proof. intros cmd r H. by apply not_elem_of_nil in H. Qed.

Lemma no_system_fprintf fmt args t : no_system t -> no_system (ev_fprintf fmt args :: t).
Proof.
  intros Ht cmd r H. apply elem_of_cons in H as [H|H]; [discriminate|]. by apply (Ht cmd r).
Qed.

#[local] Hint Resolve no_system_nil no_system_fprintf : core.

(** ** Opening files *)

Lemma fopen_w_None path fs :
  fst (fopen path mode_w fs) = None <-> wr_ok fs path = false.
Proof. unfold fopen. destruct (wr_ok fs path); cbn; split; congruence. Qed.

Lemma fopen_w_Some path fs fp fs1 :
  fopen path mode_w fs = (Some fp, fs1) <->
  wr_ok fs path = true /\ fp = mk_FILE path 0
  /\ fs1 = with_files fs (<[path := []]> (files fs)).
Proof.
  unfold fopen. destruct (wr_ok fs path); split.
  - intros [= <- <-]. done.
  - by intros (_ & -> & ->).
  - discriminate.
  - by intros (? & _).
Qed.

Lemma fopen_r_None path fs :
  fst (fopen path mode_r fs) = None <->
  files fs !! path = None \/ rd_ok fs path = false.
Proof.
  unfold fopen. destruct (files fs !! path), (rd_ok fs path); cbn; split;
    try congruence; auto.
  intros [?|?]; congruence.
Qed.

(** ** The names the plugin passes over *)

Lemma my_optimize_func_skips system filename my_params w :
  filename = None \/ filename = Some "/dev/null"
  \/ (exists f, filename = Some f /\ ~ ends_with_dot_s f) ->
  exists e t,
    my_optimize_func system filename my_params w
    = Return e (mk_world (disk w) (trace w ++ t))
    /\ (e = skip_no_asm_file \/ e = skip_not_dot_s)
    /\ no_system t.
Proof.
  intros [->|[->|(f & -> & Hf)]].
  - exists skip_no_asm_file, []. rewrite world_eta. auto.
  - exists skip_no_asm_file, []. rewrite world_eta. auto.
  - unfold my_optimize_func.
    destruct (strcmp f "/dev/null" =? 0) eqn:Hd.
    + exists skip_no_asm_file, []. rewrite world_eta. auto.
    + assert (Ht : ((strlen f <? 2)%nat
                    || negb (strcmp (offset f (strlen f - 2)) ".s" =? 0)) = true).
      { apply not_false_iff_true. intros Ht. by apply dot_s_test in Ht. }
      unfold bind, PRINT_INFO, emit, return_at. rewrite Ht. cbn [disk trace].
      eexists skip_not_dot_s, _. rewrite <- app_assoc. split; [reflexivity|].
      cbn [app]. auto.
Qed.

Lemma empty_name_not_dot_s : ~ ends_with_dot_s EmptyString.
Proof.
  intros [base Hb]. apply (f_equal String.length) in Hb.
  rewrite length_append in Hb. simpl in Hb. lia.
Qed.

(** ** What the rules of [patch_run] say about the file *)

Section PatchFacts.
Variable system : string -> filesys -> Z * filesys.

(** The function returns, and what it returns is fixed by the rule. *)
Lemma my_optimize_func_returns filename my_params w e w' :
  ends_with_dot_s filename ->
  my_optimize_func system (Some filename) my_params w = Return e w' ->
  exists t, w' = mk_world (disk w') (trace w ++ t)
            /\ events_since w w' = t
            /\ patch_run system filename my_params (disk w) e (disk w') t.
Proof.
  intros Hs Heq.
  destruct (my_optimize_func_run system filename my_params w Hs) as (e0 & fs' & t & Hrun & Hp).
  rewrite Hrun in Heq. injection Heq as <- <-. exists t. cbn [disk trace].
  by rewrite events_since_app.
Qed.

Lemma backup_done_source filename my_params fs fsb :
  ends_with_dot_s filename ->
  backup_done filename my_params fs fsb ->
  files fsb !! filename = files fs !! filename.
Proof.
  intros [base ->] [Hk|c Hk Hw Hc Hr]; [done|].
  cbn [files with_files]. rewrite lookup_insert_ne; [done|apply copy_differs].
Qed.

(** Every rule but the last leaves the content of the file as it was, when
    the rewriter does. *)
Lemma patch_run_failure_keeps_source filename my_params fs e fs' t :
  ends_with_dot_s filename ->
  leaves_input system filename ->
  patch_run system filename my_params fs e fs' t ->
  e <> optimizer_executed ->
  files fs' !! filename = files fs !! filename.
Proof.
  intros Hs Hin Hrun He.
  assert (Hsys : forall fsb r fs1,
             backup_done filename my_params fs fsb ->
             system (command filename) fsb = (r, fs1) ->
             files fs1 !! filename = files fs !! filename).
  { intros fsb r fs1 Hb Heq. rewrite <- (backup_done_source _ _ _ _ Hs Hb).
    rewrite <- (Hin fsb). by rewrite Heq. }
  destruct Hs as [base ->].
  inversion Hrun; subst; eauto.
  - cbn [files with_files]. rewrite lookup_insert_ne; [done|apply copy_differs].
  - done.
Qed.

(** The last rule leaves the output of the rewriter in the file. *)
Lemma patch_run_success filename my_params fs fs' t :
  ends_with_dot_s filename ->
  patch_run system filename my_params fs optimizer_executed fs' t ->
  exists fsb fs1 o,
    backup_done filename my_params fs fsb
    /\ system (command filename) fsb = (0, fs1)
    /\ files fs1 !! filename_optimized filename = Some o
    /\ rd_ok fs1 (filename_optimized filename) = true
    /\ wr_ok fs1 filename = true
    /\ files fs' !! filename = Some o
    /\ (keep_files my_params = false ->
        files fs' = delete (filename_optimized filename) (<[filename := o]> (files fs1)))
    /\ (keep_files my_params = true -> files fs' = <[filename := o]> (files fs1)).
Proof.
  intros [base ->] Hrun. inversion Hrun; subst.
  exists fsb, fs1, o. repeat split; try done.
  - destruct (keep_files my_params); cbn [files with_files remove].
    + by rewrite lookup_insert_eq.
    + rewrite lookup_delete_ne by apply optimized_differs. by rewrite lookup_insert_eq.
  - by intros ->.
  - by intros ->.
Qed.

End PatchFacts.

(** [my_optimize_func] returns on every name: it never ends with a copy loop
    that is out of fuel. *)
Lemma my_optimize_func_total system filename my_params w :
  exists e w', my_optimize_func system filename my_params w = Return e w'.
Proof.
  destruct filename as [f|].
  - destruct ((strlen f <? 2)%nat
              || negb (strcmp (offset f (strlen f - 2)) ".s" =? 0)) eqn:Ht.
    + destruct (my_optimize_func_skips system (Some f) my_params w)
        as (e & t & Hrun & _); [|by eauto].
      right. right. exists f. split; [done|]. intros Hs.
      apply dot_s_test in Hs. cbn zeta in Hs. congruence.
    + apply dot_s_test in Ht.
      destruct (my_optimize_func_run system f my_params w Ht) as (e & fs' & t & Hrun & _).
      eauto.
  - by exists skip_no_asm_file, w.
Qed.

(** The other direction: when the backup is done (or not asked for), the
    rewriter returns zero, its output can be opened for reading and the file
    for writing, the function reaches its end. *)
Lemma patch_succeeds system filename my_params w fsb fs1 :
  ends_with_dot_s filename ->
  backup_done filename my_params (disk w) fsb ->
  system (command filename) fsb = (0, fs1) ->
  is_Some (fst (fopen (filename_optimized filename) mode_r fs1)) ->
  is_Some (fst (fopen filename mode_w fs1)) ->
  exists w', my_optimize_func system (Some filename) my_params w
             = Return optimizer_executed w'.
Proof.
  intros Hs Hb Hsys Hrd Hwr.
  assert (Hrd' : ~ (files fs1 !! filename_optimized filename = None
                    \/ rd_ok fs1 (filename_optimized filename) = false)).
  { intros H. apply fopen_r_None in H. rewrite H in Hrd. by destruct Hrd. }
  assert (Hwr' : wr_ok fs1 filename <> false).
  { intros H. apply fopen_w_None in H. rewrite H in Hwr. by destruct Hwr. }
  assert (Huniq : forall fsb', backup_done filename my_params (disk w) fsb' -> fsb' = fsb).
  { intros fsb' Hb'. destruct Hb as [Hk|c Hk Hw Hc Hr], Hb' as [Hk'|c' Hk' Hw' Hc' Hr'];
      congruence. }
  destruct (my_optimize_func_run system filename my_params w Hs) as (e & fs' & t & Hrun & Hp).
  assert (e = optimizer_executed) as ->; [|by eauto].
  inversion Hp as [Hk Hw | Hk Hw Hc | fsb0 r fs0 Hb0 Hs0 Hr | fsb0 fs0 Hb0 Hs0 Ho
                   | fsb0 fs0 o Hb0 Hs0 Ho Hr0 Hw0 | fsb0 fs0 o Hb0 Hs0 Ho Hr0 Hw0];
    subst; try done.
  - destruct Hb as [Hk'|c Hk' Hw' Hc' Hr']; congruence.
  - destruct Hb as [Hk'|c Hk' Hw' Hc' Hr']; [congruence|]. destruct Hc; congruence.
  - apply Huniq in Hb0. subst fsb0. rewrite Hsys in Hs0. by injection Hs0 as <- <-.
  - apply Huniq in Hb0. subst fsb0. rewrite Hsys in Hs0. injection Hs0 as <-. tauto.
  - apply Huniq in Hb0. subst fsb0. rewrite Hsys in Hs0. injection Hs0 as <-. congruence.
Qed.

(** ** A rewriter that is a function of its input *)

Section RewriterFacts.
Variable system : string -> filesys -> Z * filesys.

Lemma backup_done_perms filename my_params fs fsb :
  backup_done filename my_params fs fsb ->
  rd_ok fsb = rd_ok fs /\ wr_ok fsb = wr_ok fs.
Proof. by intros [Hk|c Hk Hw Hc Hr]. Qed.

(** What a rewriter that is a function of its input does in one call. *)
Lemma rewriter_call filename rw fsb r fs1 :
  rewriter_is system filename rw ->
  system (command filename) fsb = (r, fs1) ->
  files fs1 !! filename = files fsb !! filename
  /\ rd_ok fs1 = rd_ok fsb /\ wr_ok fs1 = wr_ok fsb
  /\ (r = 0 <-> is_Some (files fsb !! filename ≫= rw))
  /\ (r = 0 -> files fs1 !! filename_optimized filename = files fsb !! filename ≫= rw).
Proof.
  intros [Hin Hrd Hwr Hst Hout] Hsys.
  specialize (Hin fsb). specialize (Hrd fsb). specialize (Hwr fsb).
  specialize (Hst fsb). specialize (Hout fsb).
  rewrite Hsys in *. cbn [fst snd] in *. done.
Qed.

(** Two calls in a row: the second leaves the file as the first left it. *)
Lemma two_calls_same_file filename rw my_params w :
  ends_with_dot_s filename ->
  rewriter_is system filename rw ->
  (forall c o, rw c = Some o -> rw o = Some o) ->
  exists e1 w1 e2 w2,
    my_optimize_func system (Some filename) my_params w = Return e1 w1
    /\ my_optimize_func system (Some filename) my_params w1 = Return e2 w2
    /\ file_at w2 filename = file_at w1 filename.
Proof.
  intros Hs Hrw Hidem.
  destruct (my_optimize_func_run system filename my_params w Hs)
    as (e1 & fs1 & t1 & Hrun1 & Hp1).
  destruct (my_optimize_func_run system filename my_params
              (mk_world fs1 (trace w ++ t1)) Hs)
    as (e2 & fs2 & t2 & Hrun2 & Hp2).
  cbn [disk trace] in Hrun2, Hp2.
  exists e1, (mk_world fs1 (trace w ++ t1)), e2, (mk_world fs2 ((trace w ++ t1) ++ t2)).
  split; [done|]. split; [done|]. unfold file_at. cbn [disk].
  assert (He2 : e2 = optimizer_executed \/ e2 <> optimizer_executed).
  { destruct e2; auto; right; discriminate. }
  destruct He2 as [->|He2].
  2:{ eapply patch_run_failure_keeps_source; eauto. apply Hrw. }
  destruct (patch_run_success system _ _ _ _ _ Hs Hp2)
    as (fsb2 & fs12 & o2 & Hb2 & Hsys2 & Ho2 & Hrd2 & Hwr2 & Hsrc2 & _).
  destruct (rewriter_call _ _ _ _ _ Hrw Hsys2) as (Hin2 & Hprd2 & Hpwr2 & Hst2 & Hout2).
  pose proof (backup_done_source _ _ _ _ Hs Hb2) as Hbs2.
  destruct (backup_done_perms _ _ _ _ Hb2) as [Hbrd2 Hbwr2].
  rewrite Hout2, Hbs2 in Ho2 by done. rewrite Hsrc2.
  assert (He1 : e1 = optimizer_executed \/ e1 <> optimizer_executed).
  { destruct e1; auto; right; discriminate. }
  destruct He1 as [->|He1].
  - destruct (patch_run_success system _ _ _ _ _ Hs Hp1)
      as (fsb1 & fs11 & o1 & Hb1 & Hsys1 & Ho1 & _ & _ & Hsrc1 & _).
    destruct (rewriter_call _ _ _ _ _ Hrw Hsys1) as (_ & _ & _ & _ & Hout1).
    rewrite Hout1 in Ho1 by done.
    destruct (files fsb1 !! filename) as [c|]; [|done]. cbn in Ho1.
    rewrite Hsrc1 in Ho2. cbn in Ho2. rewrite (Hidem _ _ Ho1) in Ho2. congruence.
  - exfalso. destruct Hs as [base ->].
    inversion Hp1; subst; try done.
    + destruct Hb2 as [Hk|c Hk Hw Hc Hr]; congruence.
    + destruct Hb2 as [Hk|c Hk Hw Hc Hr]; [congruence|].
      cbn [files with_files rd_ok] in Hc, Hr.
      rewrite lookup_insert_ne in Hc by apply copy_differs.
      destruct H1; congruence.
    + destruct (rewriter_call _ _ _ _ _ Hrw H0) as (Hin1 & _ & _ & Hst1 & _).
      apply H1, Hst1. rewrite <- Hin1, <- Hbs2. by apply Hst2.
    + destruct (rewriter_call _ _ _ _ _ Hrw H0) as (Hin1 & _ & _ & Hst1 & Hout1).
      rewrite Hout1 in H1 by done.
      assert (Hsome : is_Some (files fsb !! (base +:+ ".s") ≫= rw)) by by apply Hst1.
      destruct H1 as [H1|H1]; [rewrite H1 in Hsome; by destruct Hsome|].
      rewrite Hprd2, Hbrd2 in Hrd2. congruence.
    + rewrite Hpwr2, Hbwr2 in Hwr2. congruence.
Qed.
End RewriterFacts.

(** ** Reading the options *)

Lemma tolower_letter (lower upper c : ascii) :
  tolower upper = lower -> tolower lower = lower ->
  (forall d, tolower d = lower -> d = lower \/ d = upper) ->
  tolower c = lower <-> letter lower upper c.
Proof. intros Hu Hl Hall. split; [apply Hall|]. by intros [->| ->]. Qed.

Ltac ascii_cases c :=
  destruct c as [[] [] [] [] [] [] [] []]; vm_compute; try discriminate; auto.

Lemma tolower_t c : tolower c = "t"%char <-> letter "t" "T" c.
Proof. apply tolower_letter; [done..|]. intros d. ascii_cases d. Qed.

Lemma tolower_r c : tolower c = "r"%char <-> letter "r" "R" c.
Proof. apply tolower_letter; [done..|]. intros d. ascii_cases d. Qed.

Lemma tolower_u c : tolower c = "u"%char <-> letter "u" "U" c.
Proof. apply tolower_letter; [done..|]. intros d. ascii_cases d. Qed.

Lemma tolower_e c : tolower c = "e"%char <-> letter "e" "E" c.
Proof. apply tolower_letter; [done..|]. intros d. ascii_cases d. Qed.

Lemma tolower_1 c : tolower c = "1"%char <-> c = "1"%char.
Proof. split; [|by intros ->]. ascii_cases c. Qed.

Lemma lowercase_true v : lowercase v = "true" <-> spells_true v.
Proof.
  split.
  - destruct v as [|c1 [|c2 [|c3 [|c4 [|c5 v]]]]]; cbn [lowercase]; try discriminate.
    intros [= H1 H2 H3 H4].
    exists c1, c2, c3, c4. split; [done|].
    repeat split;
      [by apply tolower_t|by apply tolower_r|by apply tolower_u|by apply tolower_e].
  - intros (c1 & c2 & c3 & c4 & -> & H1 & H2 & H3 & H4). cbn [lowercase].
    apply (proj2 (tolower_t c1)) in H1. apply (proj2 (tolower_r c2)) in H2.
    apply (proj2 (tolower_u c3)) in H3. apply (proj2 (tolower_e c4)) in H4.
    by rewrite H1, H2, H3, H4.
Qed.

Lemma lowercase_one v : lowercase v = "1" <-> v = "1".
Proof.
  split; [|by intros ->].
  destruct v as [|c1 [|c2 v]]; cbn [lowercase]; try discriminate.
  intros [= H]. apply (proj1 (tolower_1 c1)) in H. by subst.
Qed.

Lemma value_is_true_iff v : value_is_true v = true <-> spells_true v \/ v = "1".
Proof.
  unfold value_is_true, strcasecmp. rewrite orb_true_iff, !strcmp_zero.
  change (lowercase "true") with "true". change (lowercase "1") with "1".
  by rewrite lowercase_true, lowercase_one.
Qed.

Lemma recognised_iff a :
  recognised a = true <-> key a = "disable" \/ key a = "keep-files".
Proof. unfold recognised. by rewrite orb_true_iff, !strcmp_zero. Qed.

Lemma option_test_Some name a b :
  option_test name a = Some b
  <-> (key a <> name /\ b = false)
      \/ (key a = name /\ exists v, value a = Some v /\ value_is_true v = b).
Proof.
  unfold option_test. destruct (strcmp (key a) name =? 0) eqn:E.
  - apply strcmp_zero in E. destruct (value a) as [v|]; cbn; split.
    + intros [= <-]. right. eauto.
    + intros [[? _]|(_ & v' & [= <-] & <-)]; done.
    + done.
    + intros [[? _]|(_ & v' & ? & _)]; done.
  - assert (key a <> name) by (intros H; apply strcmp_zero in H; congruence).
    split.
    + intros [= <-]. by left.
    + intros [[_ ->]|[? _]]; done.
Qed.

Lemma option_test_None name a :
  option_test name a = None <-> key a = name /\ value a = None.
Proof.
  unfold option_test. destruct (strcmp (key a) name =? 0) eqn:E.
  - apply strcmp_zero in E. destruct (value a); cbn; split; try done. by intros [_ ?].
  - assert (key a <> name) by (intros H; apply strcmp_zero in H; congruence).
    split; [done|]. by intros [? _].
Qed.

Lemma option_set_one name a :
  option_set name [a] <-> option_test name a = Some true.
Proof.
  rewrite option_test_Some. split.
  - intros (b & v & Hb & Hk & Hv & Ht). apply list_elem_of_singleton in Hb as ->.
    right. eauto.
  - intros [[_ ?]|(Hk & v & Hv & Ht)]; [done|].
    exists a, v. by rewrite list_elem_of_singleton.
Qed.

Lemma option_set_nil name : ~ option_set name [].
Proof. intros (a & v & Ha & _). by apply not_elem_of_nil in Ha. Qed.

Lemma option_set_cons name a args :
  option_set name (a :: args) <-> option_set name [a] \/ option_set name args.
Proof.
  split.
  - intros (b & v & Hb & H). apply elem_of_cons in Hb as [->|Hb].
    + left. exists a, v. by rewrite list_elem_of_singleton.
    + right. by exists b, v.
  - intros [(b & v & Hb & H)|(b & v & Hb & H)]; exists b, v; split; try done.
    + apply list_elem_of_singleton in Hb as ->. left.
    + by right.
Qed.

Lemma reads_missing_value_nil : ~ reads_missing_value [].
Proof. intros (before & a & after & H & _). by destruct before. Qed.

Lemma reads_missing_value_cons a args :
  reads_missing_value (a :: args)
  <-> (recognised a = true /\ value a = None)
      \/ (~ option_set "disable" [a] /\ reads_missing_value args).
Proof.
  split.
  - intros (before & b & after & Heq & Hr & Hv & Hd).
    destruct before as [|a' before]; cbn in Heq; injection Heq as -> ->.
    + by left.
    + right. rewrite option_set_cons in Hd. split; [tauto|].
      exists before, b, after. repeat split; try done. tauto.
  - intros [[Hr Hv]|[Hd (before & b & after & -> & Hr & Hv & Hb)]].
    + exists [], a, args. repeat split; try done. apply option_set_nil.
    + exists (a :: before), b, after. repeat split; try done.
      rewrite option_set_cons. tauto.
Qed.

(** The loop hands a null pointer to [strcasecmp] exactly when it gets to a
    value that is not there. *)
Lemma scan_args_null args my_params :
  scan_args args my_params = null_pointer_read <-> reads_missing_value args.
Proof.
  revert my_params. induction args as [|a args IH]; intros my_params; cbn [scan_args].
  - split; [done|]. intros H. by apply reads_missing_value_nil in H.
  - rewrite reads_missing_value_cons, recognised_iff, option_set_one.
    destruct (option_test "disable" a) as [[|]|] eqn:Hd.
    + apply option_test_Some in Hd as [[_ ?]|(Hk & v & Hv & _)]; [done|].
      split; [done|]. intros [[_ ?]|[? _]]; congruence.
    + destruct (option_test "keep-files" a) as [keep|] eqn:Hk.
      * rewrite IH. split; [intros ?; right; by split|].
        intros [[[Hkey|Hkey] Hv]|[_ ?]]; [| |done].
        -- assert (option_test "disable" a = None) by by apply option_test_None.
           congruence.
        -- assert (option_test "keep-files" a = None) by by apply option_test_None.
           congruence.
      * apply option_test_None in Hk as [Hkey Hv]. split; [|done]. intros _. left. auto.
    + apply option_test_None in Hd as [Hkey Hv]. split; [|done]. intros _. left. auto.
Qed.

Lemma scan_args_disabled args my_params :
  scan_args args my_params = returned None -> option_set "disable" args.
Proof.
  revert my_params. induction args as [|a args IH]; intros my_params; cbn [scan_args].
  - done.
  - rewrite option_set_cons, option_set_one.
    destruct (option_test "disable" a) as [[|]|]; [auto| |done].
    destruct (option_test "keep-files" a); [|done]. intros H. right. by eapply IH.
Qed.

Lemma scan_args_keep args my_params my_params' :
  scan_args args my_params = returned (Some my_params') ->
  ~ option_set "disable" args
  /\ (keep_files my_params' = true
      <-> keep_files my_params = true \/ option_set "keep-files" args).
Proof.
  revert my_params. induction args as [|a args IH]; intros my_params; cbn [scan_args].
  - intros [= <-]. split; [apply option_set_nil|]. split; [auto|].
    intros [H|H]; [done|]. by apply option_set_nil in H.
  - rewrite (option_set_cons "disable"), (option_set_cons "keep-files"), !option_set_one.
    destruct (option_test "disable" a) as [[|]|]; [done| |done].
    destruct (option_test "keep-files" a) as [keep|]; [|done].
    intros Hscan. destruct (IH _ Hscan) as [Hd Hk]. split; [intros [?|?]; done|].
    rewrite Hk. destruct keep; cbn [keep_files].
    + split; intros _; [right; left; done | left; done].
    + split; [intros [?|?]; auto | intros [?|[?|?]]; auto; discriminate].
Qed.

(** The three ways the loop can end, by what the arguments are. *)
Lemma scan_args_cases args my_params :
  (reads_missing_value args /\ scan_args args my_params = null_pointer_read)
  \/ (~ reads_missing_value args /\ option_set "disable" args
      /\ scan_args args my_params = returned None)
  \/ (~ reads_missing_value args /\ ~ option_set "disable" args
      /\ exists my_params',
           scan_args args my_params = returned (Some my_params')
           /\ (keep_files my_params' = true
               <-> keep_files my_params = true \/ option_set "keep-files" args)).
Proof.
  destruct (scan_args args my_params) as [[p|]|] eqn:Hscan.
  - right. right. destruct (scan_args_keep _ _ _ Hscan) as [Hd Hk].
    split; [|split; [done|by exists p]].
    intros H. apply (scan_args_null _ my_params) in H. congruence.
  - right. left. split; [|split; [by eapply scan_args_disabled|done]].
    intros H. apply (scan_args_null _ my_params) in H. congruence.
  - left. split; [|done]. by eapply scan_args_null.
Qed.

Lemma options_have_values_read args :
  options_have_values args -> ~ reads_missing_value args.
Proof.
  intros Hall (before & a & after & -> & Hr & Hv & _).
  destruct (Hall a) as [v Hsome]; [|done|congruence].
  apply elem_of_app. right. left.
Qed.

(** ** Two compiler runs

    In the plugin every call of [my_optimize_func] belongs to a compiler run
    of its own, and the [plugin_init] of that run allocates the request the
    call ends with freeing. *)

Lemma compiler_run_twice system plugin_info filename rw run w :
  ends_with_dot_s filename ->
  rewriter_is system filename rw ->
  (forall c o, rw c = Some o -> rw o = Some o) ->
  compiler_run system true plugin_info (Some filename) = returned run ->
  exists w1 w2,
    world_after (run w) = Some w1
    /\ world_after (run w1) = Some w2
    /\ file_at w2 filename = file_at w1 filename.
Proof.
  intros Hs Hrw Hidem. unfold compiler_run, plugin_init. cbn [negb].
  destruct (scan_args _ _) as [[p|]|]; [| |done]; intros Hrun;
    apply (f_equal (fun o => match o with returned r => r | null_pointer_read => run end))
      in Hrun; subst run.
  - destruct (two_calls_same_file system filename rw p w Hs Hrw Hidem)
      as (e1 & w1 & e2 & w2 & H1 & H2 & Hsame).
    exists w1, w2. unfold callback. cbn [reg_user_data]. by rewrite H1, H2.
  - by exists w, w.
Qed.

(** ** The sample rewriter keeps the contract *)

Lemma main_dot_s : ends_with_dot_s "main.s".
Proof. by exists "main". Qed.

Lemma one_to_two_twice c : one_to_two (one_to_two c) = one_to_two c.
Proof.
  unfold one_to_two. rewrite map_map. apply map_ext. intros b.
  destruct (Byte.eqb b Byte.x31) eqn:E; [done|]. by rewrite E.
Qed.

Lemma sample_rw_idempotent c o : sample_rw c = Some o -> sample_rw o = Some o.
Proof.
  destruct c as [|b c]; [discriminate|]. intros [= <-].
  cbn [one_to_two map sample_rw]. f_equal.
  change (one_to_two (one_to_two (b :: c)) = one_to_two (b :: c)).
  apply one_to_two_twice.
Qed.

Lemma sample_system_eq filename fs :
  sample_system filename (command filename) fs =
  match files fs !! filename ≫= sample_rw with
  | Some o => (0, with_files fs (<[filename_optimized filename := o]> (files fs)))
  | None => (256, fs)
  end.
Proof. unfold sample_system. by rewrite String.eqb_refl. Qed.

Lemma sample_system_output_only filename :
  writes_output_only (sample_system filename) filename.
Proof.
  intros fs path Hne. rewrite sample_system_eq.
  destruct (files fs !! filename ≫= sample_rw); [|done].
  cbn [snd files with_files]. by rewrite lookup_insert_ne.
Qed.

Lemma sample_system_rewriter filename :
  ends_with_dot_s filename ->
  rewriter_is (sample_system filename) filename sample_rw.
Proof.
  intros [base ->]. split.
  - intros fs. apply sample_system_output_only, not_eq_sym, optimized_differs.
  - intros fs. rewrite sample_system_eq. by destruct (_ ≫= _).
  - intros fs. rewrite sample_system_eq. by destruct (_ ≫= _).
  - intros fs. rewrite sample_system_eq.
    destruct (_ ≫= _) eqn:E; cbn [fst]; split;
      first [done | by eexists | by intros [? ?]].
  - intros fs. rewrite sample_system_eq.
    destruct (_ ≫= _) eqn:E; cbn [fst snd files with_files]; [|done].
    intros _. by rewrite lookup_insert_eq.
Qed.

(** ** The value of [system] *)

Lemma WEXITSTATUS_range status : 0 <= WEXITSTATUS status < 256.
Proof.
  unfold WEXITSTATUS. rewrite Z.shiftr_land. change (Z.shiftr 65280 8) with (Z.ones 8).
  rewrite Z.land_ones by lia. apply Z.mod_pos_bound. lia.
Qed.

(** A value of [system] other than zero is never the exit code it encodes. *)
Lemma WEXITSTATUS_differs status : status <> 0 -> status <> WEXITSTATUS status.
Proof.
  intros Hnz Heq. pose proof (WEXITSTATUS_range status) as Hr. rewrite <- Heq in Hr.
  apply Hnz. rewrite Heq. unfold WEXITSTATUS. rewrite Z.shiftr_land.
  rewrite (Z.shiftr_div_pow2 status 8) by lia. change (2 ^ 8) with 256.
  rewrite Z.div_small by lia. apply Z.land_0_l.
Qed.

(** A command that exits with [code] gives [system] the value [256 * code]. *)
Lemma W_EXITCODE_exited code :
  0 <= code < 256 ->
  W_EXITCODE code 0 = 256 * code
  /\ WIFEXITED (W_EXITCODE code 0) = true
  /\ WEXITSTATUS (W_EXITCODE code 0) = code.
Proof.
  intros Hc. unfold W_EXITCODE. rewrite Z.lor_0_r, Z.shiftl_mul_pow2 by lia.
  change (2 ^ 8) with 256. split; [lia|]. split.
  - unfold WIFEXITED, WTERMSIG. change 127 with (Z.ones 7).
    rewrite Z.land_ones by lia. change (2 ^ 7) with 128.
    replace (code * 256) with (code * 2 * 128) by lia. by rewrite Z.mod_mul.
  - unfold WEXITSTATUS. rewrite Z.shiftr_land, Z.shiftr_div_pow2 by lia.
    change (2 ^ 8) with 256. rewrite Z.div_mul by lia.
    change (Z.shiftr 65280 8) with (Z.ones 8). rewrite Z.land_ones by lia.
    apply Z.mod_small. change (2 ^ 8) with 256. lia.
Qed.

Lemma sound_device_completes : completes sound_device.
Proof. split; intros; cbn; lia. Qed.

Lemma exits_with_leaves_input code filename : leaves_input (exits_with code) filename.
Proof. by intros fs. Qed.

(** ** The functions on a device

    On the device that carries out every transfer the functions of
    [OnDevice] are the functions of the plugin. *)

Lemma fread_on_sound n fp fs : OnDevice.fread sound_device n fp fs = fread n fp fs.
Proof. unfold OnDevice.fread. cbn [delivers sound_device]. by rewrite Nat.min_id. Qed.

Lemma fwrite_on_sound buffer fp fs :
  OnDevice.fwrite sound_device buffer fp fs
  = (length buffer, fst (fwrite buffer fp fs), snd (fwrite buffer fp fs)).
Proof.
  unfold OnDevice.fwrite. cbn [stores sound_device]. rewrite take_ge by done.
  by destruct (fwrite buffer fp fs).
Qed.

Lemma copy_loop_on_sound fuel fp_in fp_out fs :
  OnDevice.copy_loop sound_device fuel fp_in fp_out fs = copy_loop fuel fp_in fp_out fs.
Proof.
  revert fp_in fp_out fs. induction fuel as [|fuel IH]; intros fp_in fp_out fs; [done|].
  cbn [OnDevice.copy_loop copy_loop]. rewrite fread_on_sound.
  destruct (fread sizeof_buffer fp_in fs) as [buffer fp_in'].
  destruct (0 <? length buffer)%nat; [|done].
  rewrite fwrite_on_sound. destruct (fwrite buffer fp_out fs) as [fp_out' fs'].
  apply IH.
Qed.

Lemma copy_m_on_sound {E} fp_in fp_out w :
  @OnDevice.copy_m sound_device E fp_in fp_out w = copy_m fp_in fp_out w.
Proof. unfold OnDevice.copy_m, copy_m. by rewrite copy_loop_on_sound. Qed.

Lemma keep_copy_on_sound filename w :
  OnDevice.keep_copy sound_device filename w = keep_copy filename w.
Proof.
  unfold OnDevice.keep_copy, keep_copy, bind.
  destruct (fopen_m (filename_copy filename) mode_w w) as [[fp_copy|] w1|e w1|]; try done.
  destruct (fopen_m filename mode_r w1) as [[fp_orig|] w2|e w2|]; try done.
  by rewrite copy_m_on_sound.
Qed.

Lemma optimize_and_replace_on_sound system filename my_params w :
  OnDevice.optimize_and_replace sound_device system filename my_params w
  = optimize_and_replace system filename my_params w.
Proof.
  unfold OnDevice.optimize_and_replace, optimize_and_replace, bind.
  destruct (system_m system (command filename) w) as [r w1|e w1|]; try done.
  destruct (negb (r =? 0)); [done|].
  destruct (fopen_m (filename_optimized filename) mode_r w1) as [[fp_opt|] w2|e w2|]; try done.
  destruct (fopen_m filename mode_w w2) as [[fp|] w3|e w3|]; try done.
  by rewrite copy_m_on_sound.
Qed.

(** On the device that carries out every transfer, the functions of
    [OnDevice] are the functions of the plugin. *)
Lemma my_optimize_func_on_sound system filename my_params w :
  OnDevice.my_optimize_func sound_device system filename my_params w
  = my_optimize_func system filename my_params w.
Proof.
  unfold OnDevice.my_optimize_func, my_optimize_func.
  destruct filename as [filename|]; [|done].
  destruct (strcmp filename "/dev/null" =? 0); [done|].
  unfold bind, PRINT_INFO, emit. destruct (_ || _); [done|].
  destruct (keep_files my_params).
  - rewrite keep_copy_on_sound. destruct (keep_copy filename _) as [[] w2|e w2|]; try done.
    apply optimize_and_replace_on_sound.
  - apply optimize_and_replace_on_sound.
Qed.

(** ** Every run on a device follows a rule of [run_on] *)

Lemma take_take_drop {A} (m : nat) (l : list A) :
  l = take m l ++ drop (length (take m l)) l.
Proof. by rewrite drop_take_length, take_drop. Qed.

(** Copying on a device from one file to the end of another one: the loop
    ends, and what it has appended are bytes of the input in their order. *)
Lemma copy_loop_on dev fuel fp_in fp_out fs c old :
  fpath fp_in <> fpath fp_out ->
  files fs !! fpath fp_in = Some c ->
  files fs !! fpath fp_out = Some old ->
  fpos fp_out = length old ->
  (length c - fpos fp_in < fuel)%nat ->
  exists s,
    OnDevice.copy_loop dev fuel fp_in fp_out fs
    = Some (with_files fs (<[fpath fp_out := old ++ s]> (files fs)))
    /\ s `sublist_of` drop (fpos fp_in) c
    /\ (completes dev -> s = drop (fpos fp_in) c).
Proof.
  revert fp_in fp_out fs old.
  induction fuel as [|fuel IH]; intros [pin n] [pout k] fs old Hne Hin Hout Hk Hfuel;
    cbn [fpath fpos] in *; [lia|].
  cbn [OnDevice.copy_loop]. unfold OnDevice.fread, fread, contents.
  cbn [fpath fpos]. rewrite Hin. cbn [default from_option id].
  set (m := Nat.min sizeof_buffer (delivers dev fs (mk_FILE pin n) sizeof_buffer)).
  set (buffer := take m (drop n c)).
  destruct (0 <? length buffer)%nat eqn:Hlen.
  - apply Nat.ltb_lt in Hlen.
    unfold OnDevice.fwrite, fwrite, contents. cbn [fpath fpos]. rewrite Hout.
    cbn [default from_option id]. subst k.
    set (stored := take (stores dev fs (mk_FILE pout (length old)) buffer) buffer).
    rewrite (take_ge old), Nat.sub_diag, (drop_ge old) by lia.
    cbn [replicate app]. rewrite app_nil_r.
    destruct (IH (mk_FILE pin (n + length buffer))
                 (mk_FILE pout (length old + length stored))
                 (with_files fs (<[pout := old ++ stored]> (files fs)))
                 (old ++ stored)) as (s & Heq & Hsub & Hall); cbn [fpath fpos files with_files].
    + done.
    + by rewrite lookup_insert_ne.
    + by rewrite lookup_insert_eq.
    + by rewrite length_app.
    + assert (length buffer <= length c - n)%nat
        by (unfold buffer; rewrite length_take, length_drop; lia).
      lia.
    + assert (Hsplit : drop n c = buffer ++ drop (n + length buffer) c).
      { rewrite <- drop_drop. apply take_take_drop. }
      exists (stored ++ s). split; [|split].
      * rewrite Heq. cbn [fpath fpos files with_files].
        by rewrite insert_insert_eq, app_assoc.
      * rewrite Hsplit. apply sublist_app; [apply sublist_take|done].
      * intros Hc. rewrite (Hall Hc), Hsplit. f_equal.
        unfold stored. apply take_ge, Hc.
  - apply Nat.ltb_ge in Hlen. exists []. split; [|split].
    + by rewrite app_nil_r, insert_id, with_files_same.
    + apply sublist_nil_l.
    + intros [Hd _]. symmetry. destruct (drop n c) as [|b rest] eqn:E; [done|].
      exfalso. subst buffer m. rewrite Nat.min_l in Hlen by apply Hd.
      pose proof sizeof_buffer_pos. destruct sizeof_buffer; cbn in *; lia.
Qed.

Section DeviceRunFacts.
Variable dev : device.
Variable system : string -> filesys -> Z * filesys.

(** The backup step on a device: one of its two [return] statements, or the
    copy written as far as the device goes. *)
Lemma keep_copy_on_run filename w :
  ends_with_dot_s filename ->
  let fs := disk w in
  (wr_ok fs (filename_copy filename) = false
   /\ OnDevice.keep_copy dev filename w
      = Return fail_open_copy
          (mk_world fs
             (trace w ++ [ev_fprintf (error_line ("Failed to open %s for writing" +:+ nl))
                                     [arg_str (filename_copy filename)]])))
  \/ (wr_ok fs (filename_copy filename) = true
      /\ (files fs !! filename = None \/ rd_ok fs filename = false)
      /\ OnDevice.keep_copy dev filename w
         = Return fail_open_orig
             (mk_world (with_files fs (<[filename_copy filename := []]> (files fs)))
                (trace w ++ [ev_fprintf (error_line ("Failed to open %s for reading" +:+ nl))
                                        [arg_str filename]])))
  \/ (exists fsb,
        backup_made dev filename (mk_params true) fs fsb
        /\ OnDevice.keep_copy dev filename w = Next tt (mk_world fsb (trace w))).
Proof.
  intros [base ->]. pose proof (copy_differs base) as Hne.
  destruct w as [fs t]. cbn zeta. cbn [disk trace].
  unfold OnDevice.keep_copy, bind, fopen_m, on_disk, fopen, PRINT_ERROR, emit, return_at,
    fclose_m, ret.
  generalize dependent (base +:+ ".s"). intros f Hne.
  set (g := filename_copy f) in *.
  cbn [disk trace].
  destruct (wr_ok fs g) eqn:Hw; [|by left].
  right.
  cbn [disk trace files with_files rd_ok wr_ok].
  rewrite lookup_insert_ne by done.
  destruct (files fs !! f) as [c|] eqn:Hc; [|left; auto].
  destruct (rd_ok fs f) eqn:Hr; [|left; auto].
  right.
  cbn beta iota. unfold OnDevice.copy_m, copy_fuel, contents.
  cbn [disk trace files with_files fpath fpos].
  rewrite lookup_insert_ne by done. rewrite Hc. cbn [default from_option id].
  destruct (copy_loop_on dev (S (length c - 0)) (mk_FILE f 0) (mk_FILE g 0)
              (with_files fs (<[g := []]> (files fs))) c [])
    as (s & Heq & Hsub & Hall); cbn [fpath fpos files with_files];
    rewrite ?lookup_insert_eq, ?lookup_insert_ne by done; try done; try lia.
  cbn [fpath fpos files with_files app] in Heq.
  rewrite insert_insert_eq in Heq. rewrite drop_0 in Hsub, Hall.
  rewrite Heq. exists (with_files fs (<[g := s]> (files fs))). split; [|done].
  by apply backup_stored with (c := c).
Qed.

Lemma optimize_and_replace_on_run filename my_params w fsb :
  ends_with_dot_s filename ->
  backup_made dev filename my_params (disk w) fsb ->
  exists e fs' t,
    OnDevice.optimize_and_replace dev system filename my_params (mk_world fsb (trace w))
    = Return e (mk_world fs' (trace w ++ t))
    /\ run_on dev system filename my_params (disk w) e fs'
         (ev_fprintf (info_line ("Invoked" +:+ nl)) [] :: t).
Proof.
  intros [base ->] Hb. pose proof (optimized_differs base) as Hne.
  unfold OnDevice.optimize_and_replace, bind, system_m, fopen_m, remove_m, on_disk, fopen,
    PRINT_ERROR, PRINT_INFO, emit, return_at, fclose_m, ret.
  cbn [disk trace].
  destruct (system (command (base +:+ ".s")) fsb) as [r fs1] eqn:Hsys.
  destruct (r =? 0) eqn:Hr; cbn [negb disk trace].
  2:{ apply Z.eqb_neq in Hr. do 3 eexists. split.
      - rewrite <- app_assoc. reflexivity.
      - eapply on_fail_optimizer; eauto. }
  apply Z.eqb_eq in Hr. subst r.
  destruct (files fs1 !! filename_optimized (base +:+ ".s")) as [o|] eqn:Ho.
  2:{ do 3 eexists. split.
      - cbn [disk trace]. rewrite <- app_assoc. reflexivity.
      - eapply on_fail_open_optimized; eauto. }
  destruct (rd_ok fs1 (filename_optimized (base +:+ ".s"))) eqn:Hrd.
  2:{ do 3 eexists. split.
      - cbn [disk trace]. rewrite <- app_assoc. reflexivity.
      - eapply on_fail_open_optimized; eauto. }
  cbn [disk trace].
  destruct (wr_ok fs1 (base +:+ ".s")) eqn:Hwr.
  2:{ do 3 eexists. split.
      - cbn [disk trace]. rewrite <- app_assoc. reflexivity.
      - eapply on_fail_open_target; eauto. }
  cbn beta iota. unfold OnDevice.copy_m, copy_fuel, contents.
  cbn [disk trace files with_files fpath fpos].
  rewrite lookup_insert_ne by done. rewrite Ho. cbn [default from_option id].
  destruct (copy_loop_on dev (S (length o - 0))
              (mk_FILE (filename_optimized (base +:+ ".s")) 0) (mk_FILE (base +:+ ".s") 0)
              (with_files fs1 (<[base +:+ ".s" := []]> (files fs1))) o [])
    as (s & Heq & Hsub & Hall); cbn [fpath fpos files with_files];
    rewrite ?lookup_insert_eq, ?lookup_insert_ne by done; try done; try lia.
  cbn [fpath fpos files with_files app] in Heq.
  rewrite insert_insert_eq in Heq. rewrite drop_0 in Hsub, Hall. rewrite Heq.
  pose proof (on_optimizer_executed dev system _ my_params _ _ _ _ _
                Hb Hsys Ho Hrd Hwr Hsub Hall) as Hrun.
  cbn zeta in Hrun.
  destruct (keep_files my_params) eqn:Hk; cbn [negb disk trace]; do 3 eexists;
    (split; [rewrite <- app_assoc; reflexivity | exact Hrun]).
Qed.

Lemma my_optimize_func_on_run filename my_params w :
  ends_with_dot_s filename ->
  exists e fs' t,
    OnDevice.my_optimize_func dev system (Some filename) my_params w
    = Return e (mk_world fs' (trace w ++ t))
    /\ run_on dev system filename my_params (disk w) e fs' t.
Proof.
  intros Hs. unfold OnDevice.my_optimize_func.
  rewrite (dev_null_not_dot_s _ Hs).
  pose proof (proj2 (dot_s_test filename) Hs) as Htest. cbn zeta in Htest.
  unfold bind at 1. unfold PRINT_INFO at 1. unfold emit at 1. rewrite Htest.
  unfold bind at 1.
  set (w1 := mk_world (disk w) (trace w ++ [ev_fprintf (info_line ("Invoked" +:+ nl)) []])).
  destruct (keep_files my_params) eqn:Hk.
  - destruct (keep_copy_on_run filename w1 Hs)
      as [[Hw ->]|[(Hw & Hc & ->)|(fsb & Hb & ->)]]; cbn [disk trace w1] in *.
    + do 3 eexists. split.
      * rewrite <- app_assoc. reflexivity.
      * by apply on_fail_open_copy.
    + do 3 eexists. split.
      * rewrite <- app_assoc. reflexivity.
      * by apply on_fail_open_orig.
    + destruct (optimize_and_replace_on_run filename my_params w1 fsb Hs)
        as (e & fs' & t & Heq & Hrun).
      { inversion Hb; subst; [done|]. by eapply backup_stored. }
      cbn [disk trace w1] in Heq, Hrun. rewrite Heq. eexists e, fs', _. split; [|exact Hrun].
      by rewrite <- app_assoc.
  - destruct (optimize_and_replace_on_run filename my_params w1 (disk w) Hs)
      as (e & fs' & t & Heq & Hrun).
    { by apply backup_not_asked. }
    subst w1. unfold ret. cbn [disk trace] in Heq, Hrun. rewrite Heq. eexists e, fs', _. split; [|exact Hrun].
    by rewrite <- app_assoc.
Qed.

(** What the rules say about the file: a [return] other than the last one
    leaves it as it was, the last one leaves what has reached it. *)
Lemma backup_made_source filename my_params fs fsb :
  ends_with_dot_s filename ->
  backup_made dev filename my_params fs fsb ->
  files fsb !! filename = files fs !! filename.
Proof.
  intros [base ->] [Hk|c s Hk Hw Hc Hr Hsub Hall]; [done|].
  cbn [files with_files]. rewrite lookup_insert_ne; [done|apply copy_differs].
Qed.

Lemma run_on_failure_keeps_source filename my_params fs e fs' t :
  ends_with_dot_s filename ->
  leaves_input system filename ->
  run_on dev system filename my_params fs e fs' t ->
  e <> optimizer_executed ->
  files fs' !! filename = files fs !! filename.
Proof.
  intros Hs Hin Hp He.
  assert (Hafter : forall fsb r fs1,
             backup_made dev filename my_params fs fsb ->
             system (command filename) fsb = (r, fs1) ->
             files fs1 !! filename = files fs !! filename).
  { intros fsb r fs1 Hb Hsys. specialize (Hin fsb). rewrite Hsys in Hin. cbn [snd] in Hin.
    rewrite Hin. by eapply backup_made_source. }
  inversion Hp; subst; try done; try (by eapply Hafter).
  cbn [files with_files]. destruct Hs as [base ->].
  rewrite lookup_insert_ne; [done|apply copy_differs].
Qed.

Lemma run_on_end filename my_params fs fs' t :
  ends_with_dot_s filename ->
  run_on dev system filename my_params fs optimizer_executed fs' t ->
  exists fsb fs1 o s,
    backup_made dev filename my_params fs fsb
    /\ system (command filename) fsb = (0, fs1)
    /\ files fs1 !! filename_optimized filename = Some o
    /\ files fs' !! filename = Some s
    /\ s `sublist_of` o
    /\ (completes dev -> s = o).
Proof.
  intros [base ->] Hp. inversion Hp; subst.
  exists fsb, fs1, o, s. repeat split; try done.
  destruct (keep_files my_params); cbn [files with_files remove].
  - apply lookup_insert_eq.
  - rewrite lookup_delete_ne by apply optimized_differs. apply lookup_insert_eq.
Qed.

End DeviceRunFacts.

(** * The claims *)

(** C1.  On a name that ends in [.s], with a rewriter that leaves its input
    alone and on any device, [my_optimize_func] returns.  After every [return]
    other than the last one (every failure the function sees: an [fopen] that
    fails, a [system] that returns non-zero) the file holds what it held
    before the call, since each of them comes before the [fopen] of line 134
    has succeeded.  After the last one it holds what the device has stored of
    the rewriter's output: bytes of the output in their order, and the whole
    output when the device carries out every transfer. *)
Theorem source_is_original_or_what_was_stored (dev : device)
    (system : string -> filesys -> Z * filesys) filename my_params w :
  ends_with_dot_s filename ->
  leaves_input system filename ->
  exists e w',
    OnDevice.my_optimize_func dev system (Some filename) my_params w = Return e w'
    /\ (e <> optimizer_executed -> file_at w' filename = file_at w filename)
    /\ (e = optimizer_executed ->
        exists fsb fs1 o s,
          backup_made dev filename my_params (disk w) fsb
          /\ system (command filename) fsb = (0, fs1)
          /\ files fs1 !! filename_optimized filename = Some o
          /\ file_at w' filename = Some s
          /\ s `sublist_of` o
          /\ (completes dev -> s = o)).
Proof.
  intros Hs Hin.
  destruct (my_optimize_func_on_run dev system filename my_params w Hs)
    as (e & fs' & t & Hrun & Hp).
  exists e, (mk_world fs' (trace w ++ t)). split; [done|]. unfold file_at. cbn [disk].
  split.
  - intros He. by eapply run_on_failure_keeps_source.
  - intros ->. by eapply run_on_end.
Qed.

Lemma source_is_original_or_what_was_stored_witness :
  (exists e w',
     OnDevice.my_optimize_func (full_at 4) (sample_system "main.s") (Some "main.s")
       (mk_params true) (start read_only_source_disk) = Return e w'
     /\ e <> optimizer_executed
     /\ file_at w' "main.s" = Some (mov_eax Byte.x31))
  /\ (exists w' o,
        OnDevice.my_optimize_func sound_device (sample_system "main.s") (Some "main.s")
          (mk_params false) (start sample_disk) = Return optimizer_executed w'
        /\ files (snd (sample_system "main.s" (command "main.s") sample_disk))
             !! filename_optimized "main.s" = Some o
        /\ file_at w' "main.s" = Some o).
Proof.
  split.
  - destruct (source_is_original_or_what_was_stored (full_at 4) (sample_system "main.s")
                "main.s" (mk_params true) (start read_only_source_disk))
      as (e & w' & Hrun & Hfail & _).
    + exists "main". reflexivity.
    + exact (rw_input _ _ _ (sample_system_rewriter "main.s" main_dot_s)).
    + eassert (Hcalc : OnDevice.my_optimize_func (full_at 4) (sample_system "main.s")
                         (Some "main.s") (mk_params true) (start read_only_source_disk)
                       = Return _ _) by (vm_compute; reflexivity).
      rewrite Hcalc in Hrun. injection Hrun as <- <-.
      eexists _, _. split; [exact Hcalc|]. split; [discriminate|].
      rewrite Hfail by discriminate. reflexivity.
  - destruct (source_is_original_or_what_was_stored sound_device (sample_system "main.s")
                "main.s" (mk_params false) (start sample_disk))
      as (e & w' & Hrun & _ & Hend).
    + exists "main". reflexivity.
    + exact (rw_input _ _ _ (sample_system_rewriter "main.s" main_dot_s)).
    + eassert (Hcalc : OnDevice.my_optimize_func sound_device (sample_system "main.s")
                         (Some "main.s") (mk_params false) (start sample_disk)
                       = Return optimizer_executed _) by (vm_compute; reflexivity).
      rewrite Hcalc in Hrun. injection Hrun as <- <-.
      destruct (Hend eq_refl) as (fsb & fs1 & o & s & Hb & Hsys & Ho & Hfile & _ & Hall).
      rewrite (Hall sound_device_completes) in Hfile.
      inversion Hb as [_ Hfsb|]; [|discriminate]. subst fsb.
      cbn [disk start] in Hsys.
      eexists _, o. split; [exact Hcalc|]. split; [|exact Hfile].
      by rewrite Hsys.
Defined.

(** C1, where the claim fails.  [main.s] holds an instruction of 11 bytes and
    the rewriter writes 11 other bytes to [main.opt.s].  On a device that
    is full after the first 4 bytes of a stream, the function takes the path
    of a successful run to its end, prints that the optimizer was executed, and
    leaves the first 4 bytes of the output in [main.s]: neither what the file
    held nor the output. *)
Lemma a_short_write_leaves_part_of_the_output :
  exists fs1 w',
    file_at (start sample_disk) "main.s" = Some (mov_eax Byte.x31)
    /\ sample_system "main.s" (command "main.s") sample_disk = (0, fs1)
    /\ files fs1 !! filename_optimized "main.s" = Some (mov_eax Byte.x32)
    /\ OnDevice.my_optimize_func (full_at 4) (sample_system "main.s") (Some "main.s")
         (mk_params false) (start sample_disk) = Return optimizer_executed w'
    /\ file_at w' "main.s" = Some (take 4 (mov_eax Byte.x32))
    /\ file_at w' "main.s" <> Some (mov_eax Byte.x31)
    /\ file_at w' "main.s" <> Some (mov_eax Byte.x32)
    /\ last (trace w')
       = Some (ev_fprintf ("[PLUGIN] Optimizer executed on: %s" +:+ String "010" "")
                          [arg_str "main.s"]).
Proof.
  eexists _, _. split; [reflexivity|].
  split; [vm_compute; reflexivity|]. split; [vm_compute; reflexivity|].
  split; [vm_compute; reflexivity|]. split; [vm_compute; reflexivity|].
  split; [vm_compute; discriminate|]. split; [vm_compute; discriminate|].
  vm_compute. reflexivity.
Qed.

(** C2.  When [my_optimize_func] reaches its end on a name that ends in [.s],
    the rewriter has returned zero and its output was open for reading, and
    the file holds exactly the bytes of that output.  When files are not kept,
    the [.opt.s] file is gone.  When they are kept, the [.copy.s] file is there
    at the end, with what the file held before the call (the rewriter writes
    to its output path only). *)
Theorem successful_patch (system : string -> filesys -> Z * filesys)
    filename my_params w w' :
  ends_with_dot_s filename ->
  writes_output_only system filename ->
  my_optimize_func system (Some filename) my_params w = Return optimizer_executed w' ->
  exists fsb fs1 o,
    backup_done filename my_params (disk w) fsb
    /\ system (command filename) fsb = (0, fs1)
    /\ is_Some (fst (fopen (filename_optimized filename) mode_r fs1))
    /\ files fs1 !! filename_optimized filename = Some o
    /\ file_at w' filename = Some o
    /\ (keep_files my_params = false ->
        file_at w' (filename_optimized filename) = None)
    /\ (keep_files my_params = true ->
        exists c, file_at w filename = Some c
                  /\ file_at w' (filename_copy filename) = Some c).
Proof.
  intros Hs Hout Hrun.
  destruct (my_optimize_func_returns system _ _ _ _ _ Hs Hrun) as (t & _ & _ & Hp).
  destruct (patch_run_success system _ _ _ _ _ Hs Hp)
    as (fsb & fs1 & o & Hb & Hsys & Ho & Hrd & Hwr & Hsrc & Hdel & Hkept).
  exists fsb, fs1, o. unfold file_at. repeat split; try done.
  - unfold fopen. rewrite Ho, Hrd. by eexists.
  - intros Hk. rewrite (Hdel Hk). apply lookup_delete_eq.
  - intros Hk. rewrite (Hkept Hk). destruct Hs as [base ->].
    destruct Hb as [Hk'|c Hk' Hw Hc Hr]; [congruence|]. exists c. split; [done|].
    rewrite lookup_insert_ne by (apply not_eq_sym, copy_differs).
    specialize (Hout (with_files (disk w) (<[filename_copy (base +:+ ".s"):=c]> (files (disk w))))
                     (filename_copy (base +:+ ".s"))).
    rewrite Hsys in Hout. cbn [snd files with_files] in Hout.
    rewrite Hout by (apply not_eq_sym, optimized_copy_differ).
    apply lookup_insert_eq.
Qed.

Lemma successful_patch_witness :
  exists w',
    my_optimize_func (sample_system "main.s") (Some "main.s") (mk_params true)
      (start sample_disk) = Return optimizer_executed w'
    /\ exists fsb fs1 o,
         backup_done "main.s" (mk_params true) (disk (start sample_disk)) fsb
         /\ sample_system "main.s" (command "main.s") fsb = (0, fs1)
         /\ is_Some (fst (fopen (filename_optimized "main.s") mode_r fs1))
         /\ files fs1 !! filename_optimized "main.s" = Some o
         /\ file_at w' "main.s" = Some o
         /\ (keep_files (mk_params true) = false ->
             file_at w' (filename_optimized "main.s") = None)
         /\ (keep_files (mk_params true) = true ->
             exists c, file_at (start sample_disk) "main.s" = Some c
                       /\ file_at w' (filename_copy "main.s") = Some c).
Proof.
  eexists. split; [vm_compute; reflexivity|].
  apply (successful_patch (sample_system "main.s") "main.s").
  - exists "main". reflexivity.
  - exact (sample_system_output_only "main.s").
  - vm_compute. reflexivity.
Defined.

(** C3.  On a name that ends in [.s], with a rewriter that leaves its input
    alone and on any device, [my_optimize_func] returns, and if the run
    started the rewriter and [system] returned a value other than zero, then
    the [return] is the one of line 123; the disk is as the rewriter left it
    (the plugin has written nothing since) and the file holds what it held
    before the call; and the run has printed two lines, the second of them
    the error line of line 120 with the value [system] returned, which is the
    wait status of the rewriter and never its exit code. *)
Theorem optimizer_failure_keeps_source (dev : device)
    (system : string -> filesys -> Z * filesys) filename my_params w :
  ends_with_dot_s filename ->
  leaves_input system filename ->
  exists e w',
    OnDevice.my_optimize_func dev system (Some filename) my_params w = Return e w'
    /\ forall cmd r,
         ev_system cmd r ∈ events_since w w' -> r <> 0 ->
         e = fail_optimizer r
         /\ file_at w' filename = file_at w filename
         /\ events_since w w'
            = [ev_fprintf ("[PLUGIN] Invoked" +:+ String "010" "") [];
               ev_system (command filename) r;
               ev_fprintf
                 (String "027" "[1;31m[PLUGIN] ERROR: Python optimizer failed with code %d"
                  +:+ String "010" (String "027" "[0m"))
                 [arg_int r]]
         /\ r <> WEXITSTATUS r
         /\ exists fsb, backup_made dev filename my_params (disk w) fsb
                        /\ system (command filename) fsb = (r, disk w').
Proof.
  intros Hs Hin.
  destruct (my_optimize_func_on_run dev system filename my_params w Hs)
    as (e & fs' & t & Hrun & Hp).
  exists e, (mk_world fs' (trace w ++ t)). rewrite events_since_app.
  split; [done|]. intros cmd r Hev Hr. unfold file_at. cbn [disk].
  assert (Hkeep : e <> optimizer_executed -> files fs' !! filename = files (disk w) !! filename).
  { by apply (run_on_failure_keeps_source dev system filename my_params (disk w) e fs' t). }
  inversion Hp; subst;
    repeat (apply elem_of_cons in Hev as [Hev|Hev]; [try discriminate|]);
    try (by apply elem_of_nil in Hev);
    injection Hev as -> ->; try done.
  split; [done|]. split; [by apply Hkeep|]. split; [reflexivity|].
  split; [by apply WEXITSTATUS_differs|]. by exists fsb.
Qed.

Lemma optimizer_failure_keeps_source_witness :
  exists w',
    OnDevice.my_optimize_func (full_at 4) (exits_with 1) (Some "main.s") (mk_params true)
      (start sample_disk) = Return (fail_optimizer 256) w'
    /\ file_at w' "main.s" = Some (mov_eax Byte.x31)
    /\ events_since (start sample_disk) w'
       = [ev_fprintf ("[PLUGIN] Invoked" +:+ String "010" "") [];
          ev_system (command "main.s") 256;
          ev_fprintf
            (String "027" "[1;31m[PLUGIN] ERROR: Python optimizer failed with code %d"
             +:+ String "010" (String "027" "[0m"))
            [arg_int 256]].
Proof.
  destruct (optimizer_failure_keeps_source (full_at 4) (exits_with 1) "main.s"
              (mk_params true) (start sample_disk))
    as (e & w' & Hrun & H).
  - exists "main". reflexivity.
  - apply exits_with_leaves_input.
  - eassert (Hcalc : OnDevice.my_optimize_func (full_at 4) (exits_with 1) (Some "main.s")
                       (mk_params true) (start sample_disk) = Return _ _)
      by (vm_compute; reflexivity).
    rewrite Hcalc in Hrun. injection Hrun as <- <-.
    destruct (H (command "main.s") 256) as (_ & Hsrc & Hmsg & _).
    + vm_compute. right. left.
    + lia.
    + eexists. split; [exact Hcalc|]. split; [exact Hsrc|exact Hmsg].
Defined.

(** C3, where the claim fails.  The rewriter exits with code 1.  [system]
    returns the wait status 256, whose exit code is 1, and 256 is the number
    in the error line; no line of the run carries the exit code 1. *)
Lemma the_error_line_carries_the_wait_status :
  WIFEXITED (W_EXITCODE 1 0) = true
  /\ WEXITSTATUS (W_EXITCODE 1 0) = 1
  /\ exists w',
       OnDevice.my_optimize_func sound_device (exits_with 1) (Some "main.s")
         (mk_params false) (start sample_disk) = Return (fail_optimizer 256) w'
       /\ trace w'
          = [ev_fprintf ("[PLUGIN] Invoked" +:+ String "010" "") [];
             ev_system (command "main.s") 256;
             ev_fprintf
               (String "027" "[1;31m[PLUGIN] ERROR: Python optimizer failed with code %d"
                +:+ String "010" (String "027" "[0m"))
               [arg_int 256]]
       /\ forall fmt args, ev_fprintf fmt args ∈ trace w' -> arg_int 1 ∉ args.
Proof.
  split; [reflexivity|]. split; [reflexivity|].
  eexists. split; [vm_compute; reflexivity|]. split; [vm_compute; reflexivity|].
  intros fmt args Hev Harg. vm_compute in Hev.
  repeat (apply elem_of_cons in Hev as [Hev|Hev];
          [try discriminate; injection Hev as -> ->|]).
  - by apply elem_of_nil in Harg.
  - apply elem_of_cons in Harg as [Harg|Harg]; [discriminate|]. by apply elem_of_nil in Harg.
  - by apply elem_of_nil in Hev.
Qed.

(** C4.  With [keep_files] set, when the copy cannot be opened for writing, or
    it can and the file cannot then be opened for reading, the function
    returns at line 90 or 100: the file holds what it held, and no command was
    run. *)
Theorem backup_failure_aborts (system : string -> filesys -> Z * filesys)
    filename my_params w :
  ends_with_dot_s filename ->
  keep_files my_params = true ->
  fst (fopen (filename_copy filename) mode_w (disk w)) = None
  \/ (exists fp_copy fs1,
        fopen (filename_copy filename) mode_w (disk w) = (Some fp_copy, fs1)
        /\ fst (fopen filename mode_r fs1) = None) ->
  exists e w',
    my_optimize_func system (Some filename) my_params w = Return e w'
    /\ (e = fail_open_copy \/ e = fail_open_orig)
    /\ file_at w' filename = file_at w filename
    /\ no_system (events_since w w').
Proof.
  intros Hs Hk Hfail.
  assert (Hpre : wr_ok (disk w) (filename_copy filename) = false
                 \/ files (disk w) !! filename = None
                 \/ rd_ok (disk w) filename = false).
  { destruct Hfail as [H|(fp & fs1 & Hop & H)].
    - left. by apply fopen_w_None.
    - right. apply fopen_w_Some in Hop as (_ & _ & ->). apply fopen_r_None in H.
      cbn [files with_files rd_ok] in H. destruct Hs as [base ->].
      by rewrite lookup_insert_ne in H by apply copy_differs. }
  destruct (my_optimize_func_run system filename my_params w Hs) as (e & fs' & t & Hrun & Hp).
  exists e, (mk_world fs' (trace w ++ t)). rewrite events_since_app.
  split; [done|]. unfold file_at. cbn [disk].
  assert (Hb : forall fsb, ~ backup_done filename my_params (disk w) fsb).
  { intros fsb Hb. destruct Hb as [Hk'|c Hk' Hw Hc Hr]; [congruence|].
    destruct Hpre as [?|[?|?]]; congruence. }
  destruct Hs as [base ->].
  inversion Hp; subst; try (exfalso; by eapply Hb).
  - split; [auto|]. split; [done|]. auto.
  - split; [auto|]. split; [|auto].
    cbn [files with_files]. rewrite lookup_insert_ne; [done|apply copy_differs].
Qed.

Lemma backup_failure_aborts_witness :
  exists e w',
    my_optimize_func (sample_system "main.s") (Some "main.s") (mk_params true)
      (start no_copy_disk) = Return e w'
    /\ (e = fail_open_copy \/ e = fail_open_orig)
    /\ file_at w' "main.s" = file_at (start no_copy_disk) "main.s"
    /\ no_system (events_since (start no_copy_disk) w').
Proof.
  apply (backup_failure_aborts (sample_system "main.s") "main.s").
  - exists "main". reflexivity.
  - reflexivity.
  - left. vm_compute. reflexivity.
Defined.

(** C5.  For the null pointer, the empty name, [/dev/null] and every name that
    does not end in [.s], [my_optimize_func] returns at line 48 or 57 with the
    disk it was given (no file created, removed or changed) and without
    running a command.  The dummy likewise returns at once on the null pointer
    and on [/dev/null]. *)
Theorem skipped_paths_are_noop (system : string -> filesys -> Z * filesys)
    filename my_params w :
  filename = None \/ filename = Some EmptyString \/ filename = Some "/dev/null"
  \/ (exists f, filename = Some f /\ ~ ends_with_dot_s f) ->
  (exists e t,
      my_optimize_func system filename my_params w
      = Return e (mk_world (disk w) (trace w ++ t))
      /\ (e = skip_no_asm_file \/ e = skip_not_dot_s)
      /\ no_system t)
  /\ (filename = None \/ filename = Some "/dev/null" ->
      Dummy.peephole_optimize filename w = Return Dummy.skip_no_asm_file w).
Proof.
  intros H. split.
  - apply my_optimize_func_skips. destruct H as [H|[H|[H|H]]]; auto.
    right. right. exists EmptyString. split; [done|apply empty_name_not_dot_s].
  - intros [->| ->]; reflexivity.
Qed.

Lemma skipped_paths_are_noop_witness :
  (exists e t,
      my_optimize_func (sample_system "main.s") (Some "main.c") (mk_params false)
        (start sample_disk)
      = Return e (mk_world (disk (start sample_disk)) (trace (start sample_disk) ++ t))
      /\ (e = skip_no_asm_file \/ e = skip_not_dot_s)
      /\ no_system t)
  /\ Dummy.peephole_optimize (Some "/dev/null") (start sample_disk)
     = Return Dummy.skip_no_asm_file (start sample_disk).
Proof.
  split.
  - apply (skipped_paths_are_noop (sample_system "main.s") (Some "main.c")).
    right. right. right. exists "main.c". split; [reflexivity|].
    intros H. apply dot_s_test in H. vm_compute in H. discriminate.
  - apply (skipped_paths_are_noop (sample_system "main.s") (Some "/dev/null")
             (mk_params false)).
    + right. right. left. reflexivity.
    + right. reflexivity.
Defined.

(** C6.  For a name [base.s] the two derived names are [base.opt.s] and
    [base.copy.s]: the last two bytes are replaced.  For [main.s] they are
    [main.opt.s] and [main.copy.s]. *)
Theorem derived_paths :
  (forall base,
     filename_optimized (base +:+ ".s") = base +:+ ".opt.s"
     /\ filename_copy (base +:+ ".s") = base +:+ ".copy.s")
  /\ filename_optimized "main.s" = "main.opt.s"
  /\ filename_copy "main.s" = "main.copy.s".
Proof.
  split; [|done]. intros base. unfold filename_optimized, filename_copy.
  by rewrite !derive_dot_s.
Qed.

(** C7.  With a rewriter that is a fixed function [rw] of the content of its
    input, where [rw] maps each of its outputs to itself, two calls in a row
    on the same name both return, and the file holds after the second call
    what it held after the first. *)
Theorem patch_twice_is_patch_once (system : string -> filesys -> Z * filesys)
    filename rw my_params w :
  ends_with_dot_s filename ->
  rewriter_is system filename rw ->
  (forall c o, rw c = Some o -> rw o = Some o) ->
  exists e1 w1 e2 w2,
    my_optimize_func system (Some filename) my_params w = Return e1 w1
    /\ my_optimize_func system (Some filename) my_params w1 = Return e2 w2
    /\ file_at w2 filename = file_at w1 filename.
Proof. apply two_calls_same_file. Qed.

Lemma patch_twice_is_patch_once_witness :
  exists e1 w1 e2 w2,
    my_optimize_func (sample_system "main.s") (Some "main.s") (mk_params true)
      (start sample_disk) = Return e1 w1
    /\ my_optimize_func (sample_system "main.s") (Some "main.s") (mk_params true) w1
       = Return e2 w2
    /\ file_at w2 "main.s" = file_at w1 "main.s".
Proof.
  apply (patch_twice_is_patch_once (sample_system "main.s") "main.s" sample_rw).
  - exists "main". reflexivity.
  - exact (sample_system_rewriter "main.s" main_dot_s).
  - exact sample_rw_idempotent.
Defined.

(** C8.  A value reads as true exactly when it spells the word true in any
    mix of cases or is the string [1].  [plugin_init] hands a null pointer to
    [strcasecmp] exactly when its loop gets to a [disable] or [keep-files]
    argument that has no value.  When it does not: if some [disable] argument
    reads as true, [plugin_init] returns 0 and registers nothing, so the
    compiler run has nothing to call at its end; otherwise it registers the
    callback, with [keep_files] set exactly when some [keep-files] argument
    reads as true, and the compiler run ends with [my_optimize_func] on these
    parameters. *)
Theorem plugin_init_options plugin_info :
  (forall v, value_is_true v = true <-> spells_true v \/ v = "1")
  /\ (plugin_init true plugin_info = null_pointer_read
      <-> reads_missing_value (argv plugin_info))
  /\ (~ reads_missing_value (argv plugin_info) ->
      option_set "disable" (argv plugin_info) ->
      plugin_init true plugin_info = returned (0, None)
      /\ forall system file,
           compiler_run system true plugin_info file = returned (ret tt))
  /\ (~ reads_missing_value (argv plugin_info) ->
      ~ option_set "disable" (argv plugin_info) ->
      exists my_params,
        plugin_init true plugin_info
        = returned
            (0, Some (mk_registration (base_name plugin_info) PLUGIN_FINISH my_params))
        /\ (keep_files my_params = true
            <-> option_set "keep-files" (argv plugin_info))
        /\ forall system file,
             compiler_run system true plugin_info file
             = returned (my_optimize_func system file my_params)).
Proof.
  split; [apply value_is_true_iff|]. unfold compiler_run, plugin_init. cbn [negb].
  destruct (scan_args_cases (argv plugin_info) (mk_params false))
    as [[Hr Hscan]|[(Hn & Hd & Hscan)|(Hn & Hd & p & Hscan & Hk)]]; rewrite Hscan.
  - split; [done|]. split; intros Hn; by destruct Hn.
  - split; [split; [discriminate|done]|]. split; [done|]. intros _ Hd'. by destruct Hd'.
  - split; [split; [discriminate|done]|]. split; [intros _ Hd'; by destruct Hd|].
    intros _ _. exists p. split; [done|]. split; [|done].
    rewrite Hk. cbn [keep_files]. split; [|auto]. by intros [?|?].
Qed.

Lemma plugin_init_options_witness :
  plugin_init true
    (mk_name_args "optimizer_plugin"
       [mk_arg "keep-files" (Some "TRUE"); mk_arg "disable" (Some "1")])
  = returned (0, None)
  /\ forall system file,
       compiler_run system true
         (mk_name_args "optimizer_plugin"
            [mk_arg "keep-files" (Some "TRUE"); mk_arg "disable" (Some "1")])
         file = returned (ret tt).
Proof.
  apply (plugin_init_options
           (mk_name_args "optimizer_plugin"
              [mk_arg "keep-files" (Some "TRUE"); mk_arg "disable" (Some "1")])).
  - apply options_have_values_read. intros a Ha _. cbn [argv] in Ha.
    apply elem_of_cons in Ha as [->|Ha]; [by eexists|].
    apply list_elem_of_singleton in Ha as ->. by eexists.
  - exists (mk_arg "disable" (Some "1")), "1". split; [right; left|].
    split; [reflexivity|]. split; reflexivity.
Defined.

(** C8, where the claim fails.  [keep-files] is given without a value and
    [disable=1] after it: the [disable] option reads as true, and
    [plugin_init] does not return 0 with nothing registered, it calls
    [strcasecmp] on the null pointer at line 194, before it gets to the
    [disable] argument.  A lone [keep-files] without a value does not leave
    [keep_files] false either: it ends in the same call. *)
Lemma an_option_without_a_value_is_read :
  option_set "disable" [mk_arg "keep-files" None; mk_arg "disable" (Some "1")]
  /\ plugin_init true
       (mk_name_args "optimizer_plugin"
          [mk_arg "keep-files" None; mk_arg "disable" (Some "1")])
     = null_pointer_read
  /\ plugin_init true
       (mk_name_args "optimizer_plugin"
          [mk_arg "keep-files" None; mk_arg "disable" (Some "1")])
     <> returned (0, None)
  /\ plugin_init true (mk_name_args "optimizer_plugin" [mk_arg "keep-files" None])
     = null_pointer_read
  /\ forall my_params,
       plugin_init true (mk_name_args "optimizer_plugin" [mk_arg "keep-files" None])
       <> returned (0, Some (mk_registration "optimizer_plugin" PLUGIN_FINISH my_params)).
Proof.
  split.
  { exists (mk_arg "disable" (Some "1")), "1". split; [right; left|].
    split; [reflexivity|]. split; reflexivity. }
  split; [reflexivity|]. split; [discriminate|]. split; [reflexivity|]. discriminate.
Qed.

(** C9.  With [keep_files] set, the copy is opened for writing before the file
    is opened for reading.  When the first succeeds and the second fails, the
    function returns at line 100 on the disk the first [fopen] left: the copy
    is there and empty, the file is as it was, and when there was no copy
    before, the set of files has grown by it. *)
Theorem failed_backup_leaves_empty_copy (system : string -> filesys -> Z * filesys)
    filename my_params w fp_copy fs1 :
  ends_with_dot_s filename ->
  keep_files my_params = true ->
  fopen (filename_copy filename) mode_w (disk w) = (Some fp_copy, fs1) ->
  fst (fopen filename mode_r fs1) = None ->
  exists t,
    my_optimize_func system (Some filename) my_params w
    = Return fail_open_orig (mk_world fs1 (trace w ++ t))
    /\ files fs1 = <[filename_copy filename := []]> (files (disk w))
    /\ files fs1 !! filename = file_at w filename
    /\ (file_at w (filename_copy filename) = None ->
        dom (files fs1) = {[filename_copy filename]} ∪ dom (files (disk w))
        /\ filename_copy filename ∉ dom (files (disk w))).
Proof.
  intros Hs Hk Hop Hrd.
  apply fopen_w_Some in Hop as (Hw & _ & ->). apply fopen_r_None in Hrd.
  cbn [files with_files rd_ok] in Hrd.
  assert (Hne : filename_copy filename <> filename).
  { destruct Hs as [base ->]. apply copy_differs. }
  rewrite lookup_insert_ne in Hrd by done.
  destruct (my_optimize_func_run system filename my_params w Hs) as (e & fs' & t & Hrun & Hp).
  assert (Hb : forall fsb, ~ backup_done filename my_params (disk w) fsb).
  { intros fsb Hb. destruct Hb as [Hk'|c Hk' Hw' Hc Hr]; [congruence|].
    destruct Hrd; congruence. }
  inversion Hp; subst; try (exfalso; by eapply Hb); [congruence|].
  eexists. split; [exact Hrun|]. cbn [files with_files]. split; [done|].
  split; [by rewrite lookup_insert_ne|].
  unfold file_at. intros Hnone. split; [apply dom_insert_L|by apply not_elem_of_dom].
Qed.

Lemma failed_backup_leaves_empty_copy_witness :
  exists t,
    my_optimize_func (sample_system "main.s") (Some "main.s") (mk_params true)
      (start unreadable_disk)
    = Return fail_open_orig
        (mk_world (snd (fopen "main.copy.s" mode_w unreadable_disk))
                  (trace (start unreadable_disk) ++ t))
    /\ files (snd (fopen "main.copy.s" mode_w unreadable_disk))
       = <[filename_copy "main.s" := []]> (files (disk (start unreadable_disk)))
    /\ files (snd (fopen "main.copy.s" mode_w unreadable_disk)) !! "main.s"
       = file_at (start unreadable_disk) "main.s"
    /\ (file_at (start unreadable_disk) (filename_copy "main.s") = None ->
        dom (files (snd (fopen "main.copy.s" mode_w unreadable_disk)))
        = {[filename_copy "main.s"]} ∪ dom (files (disk (start unreadable_disk)))
        /\ filename_copy "main.s" ∉ dom (files (disk (start unreadable_disk)))).
Proof.
  apply (failed_backup_leaves_empty_copy (sample_system "main.s") "main.s"
           (mk_params true) (start unreadable_disk) (mk_FILE "main.copy.s" 0)).
  - exists "main". reflexivity.
  - reflexivity.
  - vm_compute. reflexivity.
  - vm_compute. reflexivity.
Defined.



(** * The scenario of the specification

    [main.s] holds an instruction with the digit 1, the rewriter turns it
    into 2, files are not kept: afterwards [main.s] holds the instruction with
    2 and is the only file. *)
Example end_to_end :
  exists t,
    my_optimize_func (sample_system "main.s") (Some "main.s") (mk_params false)
      (start sample_disk)
    = Return optimizer_executed
        (mk_world (mk_filesys {[ "main.s" := mov_eax Byte.x32 ]} allow_all allow_all) t).
Proof. eexists. vm_compute. reflexivity. Qed.

(** * More of the code

    Properties of the plugin beyond the claims: the two name buffers, the
    command line, the copy loop, what a run touches and prints, the options,
    and the dummy on every input. *)

(** ** Helping facts *)

Lemma length_substring_0 n s :
  String.length (substring 0 n s) = Nat.min n (String.length s).
Proof.
  revert n. induction s as [|c s IH]; intros [|n]; cbn; try done. by rewrite IH.
Qed.

Lemma substring_0_whole n s :
  (String.length s <= n)%nat -> substring 0 n s = s.
Proof.
  revert n. induction s as [|c s IH]; intros [|n] H; cbn in *; try done; try lia.
  f_equal. apply IH. lia.
Qed.

Lemma substring_0_prefix n s :
  s = substring 0 n s +:+ substring n (String.length s - n) s.
Proof.
  destruct (Nat.le_gt_cases n (String.length s)) as [H|H].
  - by apply substring_split.
  - rewrite substring_0_whole by lia.
    replace (String.length s - n)%nat with 0%nat by lia.
    assert (Hz : forall m t, substring m 0 t = EmptyString).
    { induction m; intros [|c t]; cbn; try done. }
    rewrite Hz. clear. induction s; cbn; congruence.
Qed.

Lemma length_derive filename suffix :
  String.length (derive filename suffix)
  = (strlen filename - 2 + String.length suffix)%nat.
Proof.
  unfold derive, strlen. rewrite length_append, length_substring_0. lia.
Qed.

Lemma length_command_text filename :
  String.length (command_text filename)
  = (strlen filename + (strlen filename - 2) + 51)%nat.
Proof.
  unfold command_text, filename_optimized.
  rewrite !length_append, length_derive. unfold strlen. cbn [String.length dquote]. lia.
Qed.

Lemma buffers_step (B r : nat) :
  (0 < B)%nat -> (0 < r)%nat ->
  ((r + B - 1) / B = S ((r - Nat.min B r + B - 1) / B))%nat.
Proof.
  intros HB Hr. destruct (Nat.le_gt_cases B r) as [H|H].
  - rewrite Nat.min_l by lia.
    replace (r + B - 1)%nat with ((r - B + B - 1) + 1 * B)%nat by lia.
    rewrite Nat.div_add by lia. lia.
  - rewrite Nat.min_r by lia.
    replace (r - r + B - 1)%nat with (B - 1)%nat by lia.
    rewrite (Nat.div_small (B - 1)) by lia.
    replace (r + B - 1)%nat with ((r - 1) + 1 * B)%nat by lia.
    rewrite Nat.div_add by lia. rewrite Nat.div_small by lia. done.
Qed.

Lemma backup_done_frame filename my_params fs fsb path :
  backup_done filename my_params fs fsb ->
  path <> filename_copy filename ->
  files fsb !! path = files fs !! path.
Proof.
  intros [Hk|c Hk Hw Hc Hr] Hne; [done|].
  cbn [files with_files]. by rewrite lookup_insert_ne.
Qed.

Lemma backup_done_copy filename my_params fs fsb :
  backup_done filename my_params fs fsb ->
  keep_files my_params = true ->
  is_Some (files fs !! filename)
  /\ files fsb !! filename_copy filename = files fs !! filename.
Proof.
  intros [Hk|c Hk Hw Hc Hr] Hkeep; [congruence|].
  cbn [files with_files]. rewrite lookup_insert_eq, Hc. eauto.
Qed.

Lemma backup_done_plain filename my_params fs fsb :
  backup_done filename my_params fs fsb ->
  keep_files my_params = false -> fsb = fs.
Proof. intros [Hk|c Hk Hw Hc Hr] Hkeep; [done|congruence]. Qed.

Lemma system_frame system filename fsb r fs1 path :
  writes_output_only system filename ->
  system (command filename) fsb = (r, fs1) ->
  path <> filename_optimized filename ->
  files fs1 !! path = files fsb !! path.
Proof. intros Hout Hsys Hne. specialize (Hout fsb path Hne). by rewrite Hsys in Hout. Qed.

Lemma info_is_not_error fmt args : ~ is_error (ev_fprintf (info_line fmt) args).
Proof. intros (fmt' & args' & H). discriminate H. Qed.

Lemma system_is_not_error cmd r : ~ is_error (ev_system cmd r).
Proof. intros (fmt' & args' & H). discriminate H. Qed.

Lemma error_is_error fmt args : is_error (ev_fprintf (error_line fmt) args).
Proof. by exists fmt, args. Qed.

Lemma append_inj_r a a' b b' :
  String.length b = String.length b' -> a +:+ b = a' +:+ b' -> a = a' /\ b = b'.
Proof.
  intros Hlen H.
  assert (Hl : forall x y, list_ascii_of_string (x +:+ y)
                           = list_ascii_of_string x ++ list_ascii_of_string y).
  { induction x; intros y; cbn; [done|]. by rewrite IHx. }
  apply (f_equal list_ascii_of_string) in H. rewrite !Hl in H.
  apply app_inj_2 in H as [H1 H2].
  - split.
    + by rewrite <- (string_of_list_ascii_of_string a), H1, string_of_list_ascii_of_string.
    + by rewrite <- (string_of_list_ascii_of_string b), H2, string_of_list_ascii_of_string.
  - by rewrite !length_list_ascii.
Qed.

Lemma append_assoc a b c : (a +:+ b) +:+ c = a +:+ (b +:+ c).
Proof. induction a; cbn; congruence. Qed.

Lemma scan_args_by_options args args' my_params :
  ~ reads_missing_value args -> ~ reads_missing_value args' ->
  (option_set "disable" args <-> option_set "disable" args') ->
  (option_set "keep-files" args <-> option_set "keep-files" args') ->
  scan_args args my_params = scan_args args' my_params.
Proof.
  intros Hn Hn' Hd Hk.
  destruct (scan_args_cases args my_params)
    as [[? _]|[(_ & H1 & ->)|(_ & H1 & [b] & -> & K1)]]; [done| |];
  destruct (scan_args_cases args' my_params)
    as [[? _]|[(_ & H2 & ->)|(_ & H2 & [b'] & -> & K2)]]; try done;
    try (by apply Hd in H1); try (by apply Hd in H2).
  cbn [keep_files] in *. do 2 f_equal. rewrite Hk in K1.
  destruct b, b'; try done.
  - assert (true = true) as Ht by done. apply K1, K2 in Ht. done.
  - assert (true = true) as Ht by done. apply K2, K1 in Ht. done.
Qed.

(** An argument with another key does not count in the loop. *)
Lemma scan_args_filter args my_params :
  scan_args (List.filter recognised args) my_params = scan_args args my_params.
Proof.
  revert my_params. induction args as [|a args IH]; intros my_params; [done|].
  cbn [List.filter]. destruct (recognised a) eqn:Hr; cbn [scan_args].
  - destruct (option_test "disable" a) as [[|]|]; try done.
    destruct (option_test "keep-files" a); [apply IH|done].
  - unfold recognised in Hr. apply orb_false_iff in Hr as [Hd Hk].
    unfold option_test. rewrite Hd, Hk. apply IH.
Qed.

Lemma options_have_values_perm args args' :
  args ≡ₚ args' -> options_have_values args -> options_have_values args'.
Proof. intros Hp Hall a Ha. apply Hall. by rewrite Hp. Qed.

(** After the backup step the copy holds what the file held at the call, on
    every rule that gets that far. *)
Lemma backup_after_the_backup_step system filename my_params fs e fs' t :
  ends_with_dot_s filename ->
  writes_output_only system filename ->
  keep_files my_params = true ->
  patch_run system filename my_params fs e fs' t ->
  e <> fail_open_copy -> e <> fail_open_orig ->
  is_Some (files fs !! filename)
  /\ files fs' !! filename_copy filename = files fs !! filename.
Proof.
  intros Hs Hout Hk Hp He1 He2.
  assert (Hco : filename_copy filename <> filename_optimized filename).
  { destruct Hs as [base ->]. apply not_eq_sym, optimized_copy_differ. }
  assert (Hcf : filename_copy filename <> filename).
  { destruct Hs as [base ->]. apply copy_differs. }
  assert (Hafter : forall fsb r fs1,
             backup_done filename my_params fs fsb ->
             system (command filename) fsb = (r, fs1) ->
             is_Some (files fs !! filename)
             /\ files fs1 !! filename_copy filename = files fs !! filename).
  { intros fsb r fs1 Hb Hsys.
    destruct (backup_done_copy _ _ _ _ Hb Hk) as [Hsome Hcopy]. split; [done|].
    by rewrite (system_frame _ _ _ _ _ _ Hout Hsys Hco). }
  inversion Hp; subst; try done; try (by eapply Hafter).
  rewrite Hk. cbn [files with_files]. rewrite lookup_insert_ne by done. by eapply Hafter.
Qed.

Lemma no_nul_in_main_dot_s : NUL ∉ list_ascii_of_string "main.s".
Proof.
  cbn [list_ascii_of_string]. intros H.
  repeat (apply elem_of_cons in H as [H|H]; [discriminate|]). by apply elem_of_nil in H.
Qed.

(** ** The names (lines 60-80) *)

(** X1.  For a name that ends in [.s] and holds no zero byte, the block of
    [len + 5] bytes of line 61 and the block of [len + 6] bytes of line 72 hold
    the two derived names with their terminators: no store leaves the block,
    and the string read back is the derived name.  A block one byte smaller
    would not do: the store of the terminator would fall outside it. *)
Theorem name_blocks_have_the_size_they_need filename :
  ends_with_dot_s filename ->
  NUL ∉ list_ascii_of_string filename ->
  name_buffer filename ".opt.s" (strlen filename + 5) = Some (filename_optimized filename)
  /\ name_buffer filename ".copy.s" (strlen filename + 6) = Some (filename_copy filename)
  /\ name_buffer filename ".opt.s" (strlen filename + 4) = None
  /\ name_buffer filename ".copy.s" (strlen filename + 5) = None.
Proof.
  intros [base ->] Hnul.
  assert (Hlen : (2 <= strlen (base +:+ ".s"))%nat).
  { unfold strlen. rewrite length_append. cbn. lia. }
  assert (Hsuffix : forall s, s = ".opt.s" \/ s = ".copy.s" -> NUL ∉ list_ascii_of_string s).
  { intros s [-> | ->]; cbn [list_ascii_of_string]; intros H;
      repeat (apply elem_of_cons in H as [H|H]; [discriminate|]); by apply elem_of_nil in H. }
  destruct (name_buffer_holds (base +:+ ".s") ".opt.s" Hlen Hnul (Hsuffix _ (or_introl eq_refl)))
    as [Ho Ho'].
  destruct (name_buffer_holds (base +:+ ".s") ".copy.s" Hlen Hnul (Hsuffix _ (or_intror eq_refl)))
    as [Hc Hc'].
  cbn [String.length] in Ho, Ho', Hc, Hc'.
  set (len := strlen (base +:+ ".s")) in *.
  split; [by replace (len + 5)%nat with (len - 2 + 6 + 1)%nat by lia|].
  split; [by replace (len + 6)%nat with (len - 2 + 7 + 1)%nat by lia|].
  split; [by replace (len + 4)%nat with (len - 2 + 6)%nat by lia|].
  replace (len + 5)%nat with (len - 2 + 7)%nat by lia.
  done.
Qed.

Lemma name_blocks_have_the_size_they_need_witness :
  name_buffer "main.s" ".opt.s" (strlen "main.s" + 5) = Some (filename_optimized "main.s")
  /\ name_buffer "main.s" ".copy.s" (strlen "main.s" + 6) = Some (filename_copy "main.s")
  /\ name_buffer "main.s" ".opt.s" (strlen "main.s" + 4) = None
  /\ name_buffer "main.s" ".copy.s" (strlen "main.s" + 5) = None.
Proof.
  apply (name_blocks_have_the_size_they_need "main.s").
  - exists "main". reflexivity.
  - exact no_nul_in_main_dot_s.
Defined.

(** X2.  The derived names of [.s] names never collide: both differ from the
    name they come from, the optimized name of one file is never the copy
    name of a file, and two files share a derived name only when they are the
    same file.  Both derived names end in [.s] themselves. *)
Theorem derived_names_never_collide base base' :
  let src := base +:+ ".s" in
  let src' := base' +:+ ".s" in
  (filename_optimized src <> src /\ filename_copy src <> src
   /\ filename_optimized src <> filename_copy src')
  /\ (filename_optimized src = filename_optimized src' -> src = src')
  /\ (filename_copy src = filename_copy src' -> src = src')
  /\ ends_with_dot_s (filename_optimized src)
  /\ ends_with_dot_s (filename_copy src).
Proof.
  cbn zeta. unfold filename_optimized, filename_copy. rewrite !derive_dot_s.
  pose proof (optimized_differs base) as H1. pose proof (copy_differs base) as H2.
  unfold filename_optimized, filename_copy in H1, H2. rewrite !derive_dot_s in H1, H2.
  repeat split; try done.
  - change (base' +:+ ".copy.s") with (base' +:+ ("." +:+ "copy.s")).
    rewrite <- append_assoc. intros H. by apply append_inj_r in H as [_ H].
  - intros H. by apply append_inj_r in H as [-> _].
  - intros H. by apply append_inj_r in H as [-> _].
  - exists (base +:+ ".opt"). by rewrite append_assoc.
  - exists (base +:+ ".copy"). by rewrite append_assoc.
Qed.

(** ** The command line (lines 115-116) *)

(** X3.  The command line is the formatted text cut to 511 bytes.  For names
    of up to 231 bytes nothing is cut.  For longer names the command that is
    run has exactly 511 bytes and is a proper prefix of the formatted text: it
    has lost the end of the line. *)
Theorem command_line_is_cut_at_511 filename :
  command filename = substring 0 511 (command_text filename)
  /\ (String.length (command filename) <= 511)%nat
  /\ ((strlen filename <= 231)%nat -> command filename = command_text filename)
  /\ ((231 < strlen filename)%nat ->
      String.length (command filename) = 511%nat
      /\ exists tail, tail <> EmptyString
                      /\ command_text filename = command filename +:+ tail).
Proof.
  assert (Hc : command filename = substring 0 511 (command_text filename)) by done.
  pose proof (length_command_text filename) as Hlen.
  split; [done|]. rewrite Hc, length_substring_0. split; [lia|]. split.
  - intros H. apply substring_0_whole. lia.
  - intros H. split; [lia|].
    exists (substring 511 (String.length (command_text filename) - 511) (command_text filename)).
    split; [|apply substring_0_prefix].
    intros Hnil.
    pose proof (substring_0_prefix 511 (command_text filename)) as Hsplit.
    rewrite Hnil in Hsplit. apply (f_equal String.length) in Hsplit.
    rewrite length_append, length_substring_0 in Hsplit. cbn [String.length] in Hsplit. lia.
Qed.

Lemma command_line_is_cut_at_511_witness :
  command "main.s" = command_text "main.s"
  /\ String.length (command (long_name 230)) = 511%nat
  /\ exists tail, tail <> EmptyString
                  /\ command_text (long_name 230) = command (long_name 230) +:+ tail.
Proof.
  split.
  - apply (command_line_is_cut_at_511 "main.s"). vm_compute. lia.
  - apply (command_line_is_cut_at_511 (long_name 230)). vm_compute. lia.
Defined.

(** ** The copy loop (lines 104-108 and 144-148) *)

(** X4.  Copying from one file to the end of another one takes one [fread]
    per buffer of 4096 bytes, the last one full or not, and one more that
    returns 0: with that many calls the loop has appended all the bytes that
    were left of the input and changed nothing else, with fewer it is not
    done. *)
Theorem copy_loop_reads_one_buffer_at_a_time fuel fp_in fp_out fs c old :
  fpath fp_in <> fpath fp_out ->
  files fs !! fpath fp_in = Some c ->
  files fs !! fpath fp_out = Some old ->
  fpos fp_out = length old ->
  copy_loop fuel fp_in fp_out fs =
    if (fread_calls (length c - fpos fp_in) <=? fuel)%nat
    then Some (with_files fs (<[fpath fp_out := old ++ drop (fpos fp_in) c]> (files fs)))
    else None.
Proof.
  unfold fread_calls. pose proof sizeof_buffer_pos as HB.
  revert fp_in fp_out fs c old.
  induction fuel as [|fuel IH]; intros [pin n] [pout k] fs c old Hne Hin Hout Hk;
    cbn [fpath fpos] in *; [done|].
  cbn [copy_loop]. unfold fread, contents. cbn [fpath fpos]. rewrite Hin. cbn [default from_option id].
  destruct (0 <? length (take sizeof_buffer (drop n c)))%nat eqn:Hlen.
  - apply Nat.ltb_lt in Hlen.
    unfold fwrite, contents. cbn [fpath fpos]. rewrite Hout. cbn [default from_option id]. subst k.
    rewrite (take_ge old), Nat.sub_diag, (drop_ge old) by lia.
    cbn [replicate app]. rewrite app_nil_r.
    erewrite (IH _ _ _ c (old ++ take sizeof_buffer (drop n c))); cbn [fpath fpos files with_files].
    + rewrite length_take, length_drop in Hlen |- *.
      rewrite (buffers_step sizeof_buffer (length c - n)) by lia.
      replace (length c - (n + sizeof_buffer `min` (length c - n)))%nat
        with (length c - n - sizeof_buffer `min` (length c - n))%nat by lia.
      change (S ?a <=? S ?b)%nat with (a <=? b)%nat.
      destruct (_ <=? fuel)%nat; [|done].
      rewrite insert_insert_eq. do 3 f_equal. rewrite <- app_assoc. f_equal.
      rewrite <- drop_drop, <- (length_drop c n), <- length_take.
      by rewrite drop_take_length, take_drop.
    + done.
    + by rewrite lookup_insert_ne.
    + by rewrite lookup_insert_eq.
    + by rewrite length_app.
  - apply Nat.ltb_ge in Hlen. rewrite length_take, length_drop in Hlen.
    assert (Hr : (length c - n = 0)%nat) by lia. rewrite Hr.
    replace (0 + sizeof_buffer - 1)%nat with (sizeof_buffer - 1)%nat by lia.
    rewrite Nat.div_small by lia. cbn [Nat.leb].
    rewrite drop_ge by lia. rewrite app_nil_r, insert_id by done. by rewrite with_files_same.
Qed.

Lemma copy_loop_reads_one_buffer_at_a_time_witness :
  copy_loop 2 (mk_FILE "in" 0) (mk_FILE "out" 0) two_buffer_disk = None
  /\ copy_loop 3 (mk_FILE "in" 0) (mk_FILE "out" 0) two_buffer_disk
     = Some (with_files two_buffer_disk
               (<["out" := replicate 5000 Byte.x31]> (files two_buffer_disk))).
Proof.
  split.
  - rewrite (copy_loop_reads_one_buffer_at_a_time 2 (mk_FILE "in" 0) (mk_FILE "out" 0)
               two_buffer_disk (replicate 5000 Byte.x31) []);
      [vm_compute; reflexivity|discriminate|vm_compute; reflexivity..].
  - rewrite (copy_loop_reads_one_buffer_at_a_time 3 (mk_FILE "in" 0) (mk_FILE "out" 0)
               two_buffer_disk (replicate 5000 Byte.x31) []);
      [vm_compute; reflexivity|discriminate|vm_compute; reflexivity..].
Defined.

(** ** What a run touches (lines 44-162) *)

(** X5.  A run on a name that ends in [.s] touches three files at most: the
    file, its [.opt.s] and its [.copy.s]; every other file is as it was (the
    rewriter writes to its output path only).  When files are not kept, the
    [.copy.s] is not touched either. *)
Theorem only_three_files_are_touched (system : string -> filesys -> Z * filesys)
    filename my_params w :
  ends_with_dot_s filename ->
  writes_output_only system filename ->
  exists e w',
    my_optimize_func system (Some filename) my_params w = Return e w'
    /\ (forall path,
          path <> filename -> path <> filename_optimized filename ->
          path <> filename_copy filename ->
          file_at w' path = file_at w path)
    /\ (keep_files my_params = false ->
        file_at w' (filename_copy filename) = file_at w (filename_copy filename)).
Proof.
  intros Hs Hout.
  destruct (my_optimize_func_run system filename my_params w Hs) as (e & fs' & t & Hrun & Hp).
  exists e, (mk_world fs' (trace w ++ t)). split; [done|]. unfold file_at. cbn [disk].
  assert (Hco : filename_optimized filename <> filename_copy filename).
  { destruct Hs as [base ->]. apply optimized_copy_differ. }
  assert (Hcf : filename_copy filename <> filename).
  { destruct Hs as [base ->]. apply copy_differs. }
  assert (Hafter : forall fsb r fs1 path,
             backup_done filename my_params (disk w) fsb ->
             system (command filename) fsb = (r, fs1) ->
             path <> filename_optimized filename ->
             (path <> filename_copy filename \/ keep_files my_params = false) ->
             files fs1 !! path = files (disk w) !! path).
  { intros fsb r fs1 path Hb Hsys Hno Hc.
    rewrite (system_frame _ _ _ _ _ _ Hout Hsys Hno).
    destruct Hc as [Hc|Hk]; [by eapply backup_done_frame|].
    by rewrite (backup_done_plain _ _ _ _ Hb Hk). }
  inversion Hp; subst; cbn zeta.
  - done.
  - split; [|congruence]. intros path _ _ Hc. cbn [files with_files].
    by rewrite lookup_insert_ne.
  - split; [intros path _ Ho Hc|intros Hk]; eapply Hafter; eauto.
  - split; [intros path _ Ho Hc|intros Hk]; eapply Hafter; eauto.
  - split; [intros path _ Ho Hc|intros Hk]; eapply Hafter; eauto.
  - split.
    + intros path Hf Ho Hc.
      destruct (keep_files my_params); cbn [files with_files remove];
        rewrite ?lookup_delete_ne by done; rewrite lookup_insert_ne by done;
        eapply Hafter; eauto.
    + intros Hk. rewrite Hk. cbn [files with_files remove].
      rewrite lookup_delete_ne by done. rewrite lookup_insert_ne by done.
      eapply Hafter; eauto.
Qed.

Lemma only_three_files_are_touched_witness :
  exists e w',
    my_optimize_func (sample_system "main.s") (Some "main.s") (mk_params true)
      (start sample_disk) = Return e w'
    /\ (forall path,
          path <> "main.s" -> path <> filename_optimized "main.s" ->
          path <> filename_copy "main.s" ->
          file_at w' path = file_at (start sample_disk) path)
    /\ (keep_files (mk_params true) = false ->
        file_at w' (filename_copy "main.s")
        = file_at (start sample_disk) (filename_copy "main.s")).
Proof.
  apply (only_three_files_are_touched (sample_system "main.s") "main.s").
  - exists "main". reflexivity.
  - exact (sample_system_output_only "main.s").
Defined.





(** X8.  [remove] is reached at the end of the function only.  When the
    rewriter has returned zero and the file cannot then be opened for writing,
    the function returns at line 140 on the disk as the rewriter left it: the
    [.opt.s] file stays, also when files are not kept. *)
Theorem output_is_left_behind_when_the_file_cannot_be_written
    (system : string -> filesys -> Z * filesys) filename my_params w w' :
  ends_with_dot_s filename ->
  my_optimize_func system (Some filename) my_params w = Return fail_open_target w' ->
  exists fsb,
    backup_done filename my_params (disk w) fsb
    /\ disk w' = snd (system (command filename) fsb)
    /\ is_Some (file_at w' (filename_optimized filename))
    /\ fst (fopen filename mode_w (disk w')) = None.
Proof.
  intros Hs Hrun.
  destruct (my_optimize_func_returns system _ _ _ _ _ Hs Hrun) as (t & _ & _ & Hp).
  inversion Hp; subst. exists fsb. unfold file_at.
  match goal with H : system _ _ = _ |- _ => rewrite H end. cbn [snd].
  repeat split; [done|eauto|]. by apply fopen_w_None.
Qed.

Lemma output_is_left_behind_when_the_file_cannot_be_written_witness :
  exists w' fsb,
    my_optimize_func (sample_system "main.s") (Some "main.s") (mk_params false)
      (start read_only_source_disk) = Return fail_open_target w'
    /\ backup_done "main.s" (mk_params false) (disk (start read_only_source_disk)) fsb
    /\ disk w' = snd (sample_system "main.s" (command "main.s") fsb)
    /\ is_Some (file_at w' (filename_optimized "main.s"))
    /\ fst (fopen "main.s" mode_w (disk w')) = None.
Proof.
  eassert (Hcalc : my_optimize_func (sample_system "main.s") (Some "main.s")
                     (mk_params false) (start read_only_source_disk)
                   = Return fail_open_target _) by (vm_compute; reflexivity).
  destruct (output_is_left_behind_when_the_file_cannot_be_written
              (sample_system "main.s") "main.s" (mk_params false)
              (start read_only_source_disk) _ main_dot_s Hcalc) as (fsb & H).
  eexists _, fsb. split; [exact Hcalc|exact H].
Defined.

(** X9.  What a run on a name that ends in [.s] prints and runs.  The first
    line is the info line "Invoked", the last event is the verdict: the info
    line "Optimizer executed on" with the name at the end of the function,
    one error line on every other return; no other error line is printed.
    One command is run, the command line built for the name, or none when
    the function returns in the backup step. *)
Theorem one_command_and_one_verdict (system : string -> filesys -> Z * filesys)
    filename my_params w :
  ends_with_dot_s filename ->
  exists e w' first rest verdict,
    my_optimize_func system (Some filename) my_params w = Return e w'
    /\ events_since w w' = first :: rest ++ [verdict]
    /\ first = ev_fprintf (info_line ("Invoked" +:+ nl)) []
    /\ (e = optimizer_executed ->
        verdict = ev_fprintf (info_line ("Optimizer executed on: %s" +:+ nl))
                             [arg_str filename])
    /\ (e <> optimizer_executed -> is_error verdict)
    /\ Forall (fun ev => ~ is_error ev) (first :: rest)
    /\ (commands (events_since w w') = [command filename]
        \/ (commands (events_since w w') = []
            /\ (e = fail_open_copy \/ e = fail_open_orig))).
Proof.
  intros Hs.
  destruct (my_optimize_func_run system filename my_params w Hs) as (e & fs' & t & Hrun & Hp).
  exists e, (mk_world fs' (trace w ++ t)). rewrite events_since_app.
  inversion Hp; subst.
  - eexists _, [], _. repeat split; try done.
    + intros _. apply error_is_error.
    + repeat constructor. apply info_is_not_error.
    + right. auto.
  - eexists _, [], _. repeat split; try done.
    + intros _. apply error_is_error.
    + repeat constructor. apply info_is_not_error.
    + right. auto.
  - eexists _, [_], _. repeat split; try done.
    + intros _. apply error_is_error.
    + repeat constructor; [apply info_is_not_error|apply system_is_not_error].
    + by left.
  - eexists _, [_], _. repeat split; try done.
    + intros _. apply error_is_error.
    + repeat constructor; [apply info_is_not_error|apply system_is_not_error].
    + by left.
  - eexists _, [_], _. repeat split; try done.
    + intros _. apply error_is_error.
    + repeat constructor; [apply info_is_not_error|apply system_is_not_error].
    + by left.
  - eexists _, [_], _. repeat split; try done.
    + repeat constructor; [apply info_is_not_error|apply system_is_not_error].
    + by left.
Qed.

Lemma one_command_and_one_verdict_witness :
  exists e w' first rest verdict,
    my_optimize_func (sample_system "main.s") (Some "main.s") (mk_params true)
      (start no_copy_disk) = Return e w'
    /\ events_since (start no_copy_disk) w' = first :: rest ++ [verdict]
    /\ first = ev_fprintf (info_line ("Invoked" +:+ nl)) []
    /\ (e = optimizer_executed ->
        verdict = ev_fprintf (info_line ("Optimizer executed on: %s" +:+ nl))
                             [arg_str "main.s"])
    /\ (e <> optimizer_executed -> is_error verdict)
    /\ Forall (fun ev => ~ is_error ev) (first :: rest)
    /\ (commands (events_since (start no_copy_disk) w') = [command "main.s"]
        \/ (commands (events_since (start no_copy_disk) w') = []
            /\ (e = fail_open_copy \/ e = fail_open_orig))).
Proof.
  apply (one_command_and_one_verdict (sample_system "main.s") "main.s").
  exists "main". reflexivity.
Defined.

(** ** Keeping files or not (lines 83 and 152-155) *)

(** X10.  Whether files are kept does not change what ends up in the file.
    When a call with [keep_files] set reaches the end of the function, the
    same call without it does so too and leaves the same bytes in the file
    (the rewriter being a function of its input).  The two calls differ in
    the [.opt.s] file: kept, it holds the bytes of the file; not kept, it is
    gone. *)
Theorem keeping_files_does_not_change_the_result
    (system : string -> filesys -> Z * filesys) filename rw w w1 :
  ends_with_dot_s filename ->
  rewriter_is system filename rw ->
  my_optimize_func system (Some filename) (mk_params true) w
  = Return optimizer_executed w1 ->
  exists w2,
    my_optimize_func system (Some filename) (mk_params false) w
    = Return optimizer_executed w2
    /\ file_at w2 filename = file_at w1 filename
    /\ file_at w1 (filename_optimized filename) = file_at w1 filename
    /\ file_at w2 (filename_optimized filename) = None.
Proof.
  intros Hs Hrw Hrun1.
  destruct (my_optimize_func_returns system _ _ _ _ _ Hs Hrun1) as (t1 & _ & _ & Hp1).
  destruct (patch_run_success system _ _ _ _ _ Hs Hp1)
    as (fsb & fs1 & o & Hb & Hsys & Ho & Hrd & Hwr & Hsrc & _ & Hkept).
  destruct (rewriter_call _ _ _ _ _ _ Hrw Hsys) as (Hin & Hprd & Hpwr & Hst & Hout).
  pose proof (backup_done_source _ _ _ _ Hs Hb) as Hbs.
  destruct (backup_done_perms _ _ _ _ Hb) as [Hbrd Hbwr].
  assert (Hrw_o : files (disk w) !! filename ≫= rw = Some o).
  { rewrite <- Hbs, <- Hout, Ho; done. }
  destruct (system (command filename) (disk w)) as [r fs1'] eqn:Hsys'.
  destruct (rewriter_call _ _ _ _ _ _ Hrw Hsys') as (Hin' & Hprd' & Hpwr' & Hst' & Hout').
  assert (Hr : r = 0). { apply Hst'. rewrite Hrw_o. by eexists. }
  subst r. specialize (Hout' eq_refl). rewrite Hrw_o in Hout'.
  assert (Hof : filename_optimized filename <> filename).
  { destruct Hs as [base ->]. apply optimized_differs. }
  destruct (patch_succeeds system filename (mk_params false) w (disk w) fs1' Hs) as [w2 Hrun2].
  - by apply backup_skipped.
  - done.
  - unfold fopen. rewrite Hout', Hprd', <- Hbrd, <- Hprd, Hrd. by eexists.
  - unfold fopen. rewrite Hpwr', <- Hbwr, <- Hpwr, Hwr. by eexists.
  - exists w2. split; [done|].
    destruct (my_optimize_func_returns system _ _ _ _ _ Hs Hrun2) as (t2 & _ & _ & Hp2).
    destruct (patch_run_success system _ _ _ _ _ Hs Hp2)
      as (fsb2 & fs12 & o2 & Hb2 & Hsys2 & Ho2 & _ & _ & Hsrc2 & Hdel2 & _).
    apply backup_done_plain in Hb2; [|done]. subst fsb2.
    rewrite Hsys' in Hsys2. injection Hsys2 as <-.
    rewrite Hout' in Ho2. injection Ho2 as <-.
    unfold file_at. rewrite Hsrc, Hsrc2. split; [done|].
    rewrite (Hdel2 eq_refl), (Hkept eq_refl).
    rewrite lookup_delete_eq, lookup_insert_ne by done. by split.
Qed.

Lemma keeping_files_does_not_change_the_result_witness :
  exists w1 w2,
    my_optimize_func (sample_system "main.s") (Some "main.s") (mk_params true)
      (start sample_disk) = Return optimizer_executed w1
    /\ my_optimize_func (sample_system "main.s") (Some "main.s") (mk_params false)
         (start sample_disk) = Return optimizer_executed w2
    /\ file_at w2 "main.s" = file_at w1 "main.s"
    /\ file_at w1 (filename_optimized "main.s") = file_at w1 "main.s"
    /\ file_at w2 (filename_optimized "main.s") = None.
Proof.
  eassert (Hcalc : my_optimize_func (sample_system "main.s") (Some "main.s")
                     (mk_params true) (start sample_disk)
                   = Return optimizer_executed _) by (vm_compute; reflexivity).
  destruct (keeping_files_does_not_change_the_result (sample_system "main.s") "main.s"
              sample_rw (start sample_disk) _ main_dot_s
              (sample_system_rewriter "main.s" main_dot_s) Hcalc) as (w2 & H).
  eexists _, w2. split; [exact Hcalc|exact H].
Defined.

(** ** The options (lines 182-197) *)

(** X11.  [plugin_init] looks at the arguments named [disable] and
    [keep-files] and at no other: dropping every argument with another key
    changes neither the value returned nor what is registered. *)
Theorem other_keys_are_ignored version_ok name args :
  plugin_init version_ok (mk_name_args name (List.filter recognised args))
  = plugin_init version_ok (mk_name_args name args).
Proof.
  unfold plugin_init. cbn [argv base_name]. by rewrite scan_args_filter.
Qed.

(** X12.  Among arguments that carry their values the order does not matter
    to [plugin_init]: a true [disable] wins wherever it stands, and
    [keep_files] is set by a true [keep-files] wherever it stands, also when
    a later one is false.  With a value missing the order does matter:
    [disable=1] before a [keep-files] without a value returns 0 at line 189,
    the same two the other way round get to [strcasecmp] with the null
    pointer at line 194. *)
Theorem argument_order_is_irrelevant version_ok name :
  (forall args args',
     options_have_values args ->
     args ≡ₚ args' ->
     plugin_init version_ok (mk_name_args name args)
     = plugin_init version_ok (mk_name_args name args'))
  /\ plugin_init true
       (mk_name_args name [mk_arg "disable" (Some "1"); mk_arg "keep-files" None])
     = returned (0, None)
  /\ plugin_init true
       (mk_name_args name [mk_arg "keep-files" None; mk_arg "disable" (Some "1")])
     = null_pointer_read.
Proof.
  split; [|split; reflexivity].
  intros args args' Hall Hp. unfold plugin_init. cbn [argv base_name].
  rewrite (scan_args_by_options args args'); [done| | | |].
  - by apply options_have_values_read.
  - by eapply options_have_values_read, options_have_values_perm.
  - unfold option_set. by setoid_rewrite Hp.
  - unfold option_set. by setoid_rewrite Hp.
Qed.

Lemma argument_order_is_irrelevant_witness :
  plugin_init true
    (mk_name_args "optimizer_plugin"
       [mk_arg "keep-files" (Some "1"); mk_arg "keep-files" (Some "0")])
  = plugin_init true
      (mk_name_args "optimizer_plugin"
         [mk_arg "keep-files" (Some "0"); mk_arg "keep-files" (Some "1")]).
Proof.
  apply (argument_order_is_irrelevant true "optimizer_plugin").
  - intros a Ha _.
    apply elem_of_cons in Ha as [->|Ha]; [by eexists|].
    apply list_elem_of_singleton in Ha as ->. by eexists.
  - apply perm_swap.
Defined.

(** ** The dummy on every input (optimizer_plugin_dummy.c, lines 14-57) *)


